(** * PythonMastery: the code-submission evaluation pipeline

    A shallow embedding of the two evaluation handlers of
    [server/routes.ts], [POST /api/execute-code] and
    [POST /api/submit-solution], together with the JavaScript built-ins
    they call ([String.prototype.includes], [match], [trim], [parseInt],
    [Array.prototype.join], [Math.random], [Math.floor]).

    Requests are taken in the shape the client ([pages/problem.tsx]) sends
    them: [code] is a string and every test case is an object with an
    [input] and an [expected] field. *)

From Stdlib Require Import List ZArith NArith String Ascii Bool Lia.
From Stdlib Require Import DecimalString.
From Stdlib Require DecimalPos.
Import ListNotations.

Set Implicit Arguments.
Set Warnings "-register-all".

(** ** JavaScript strings

    A JavaScript string is a sequence of UTF-16 code units.  The regular
    expressions of the handlers carry no [u] flag, so every string
    operation below works on code units. *)

Definition char16 := N.
Definition jsstring := list char16.

Fixpoint bytes (s : string) : list N :=
  match s with
  | EmptyString => []
  | String a t => N_of_ascii a :: bytes t
  end.

(** String literals of the source file are UTF-8; [utf16_of_bytes] decodes
    them into the code units the running program sees (code points above
    U+FFFF become a surrogate pair). *)
Fixpoint utf16_of_bytes (bs : list N) : jsstring :=
  match bs with
  | [] => []
  | b0 :: t0 =>
    if (b0 <? 128)%N then b0 :: utf16_of_bytes t0
    else
      match t0 with
      | [] => []
      | b1 :: t1 =>
        if (b0 <? 224)%N then
          N.lor (N.shiftl (N.land b0 31) 6) (N.land b1 63) :: utf16_of_bytes t1
        else
          match t1 with
          | [] => []
          | b2 :: t2 =>
            if (b0 <? 240)%N then
              N.lor (N.shiftl (N.land b0 15) 12)
                    (N.lor (N.shiftl (N.land b1 63) 6) (N.land b2 63))
              :: utf16_of_bytes t2
            else
              match t2 with
              | [] => []
              | b3 :: t3 =>
                let cp :=
                  N.lor (N.shiftl (N.land b0 7) 18)
                        (N.lor (N.shiftl (N.land b1 63) 12)
                               (N.lor (N.shiftl (N.land b2 63) 6) (N.land b3 63))) in
                let v := (cp - 65536)%N in
                (55296 + N.shiftr v 10)%N :: (56320 + N.land v 1023)%N
                :: utf16_of_bytes t3
              end
          end
      end
  end.

Definition js (s : string) : jsstring := utf16_of_bytes (bytes s).

(** The double quote, which a literal of this file cannot hold. *)
Definition dquote : jsstring := [34%N].

Definition jsstring_eqb (a b : jsstring) : bool :=
  if list_eq_dec N.eq_dec a b then true else false.

(** [String.prototype.startsWith] and [String.prototype.includes]. *)
Fixpoint startsWith (s needle : jsstring) : bool :=
  match needle, s with
  | [], _ => true
  | _ :: _, [] => false
  | n :: ns, c :: cs => (n =? c)%N && startsWith cs ns
  end.

Fixpoint includes (s needle : jsstring) : bool :=
  startsWith s needle ||
  match s with
  | [] => false
  | _ :: t => includes t needle
  end.

(** *** Character classes *)

(** [\s], which is also the set [trim] strips: WhiteSpace and
    LineTerminator of ECMAScript. *)
Definition is_space (c : char16) : bool :=
  ((9 <=? c) && (c <=? 13) || (c =? 32) || (c =? 160) || (c =? 5760)
   || (8192 <=? c) && (c <=? 8202) || (c =? 8232) || (c =? 8233)
   || (c =? 8239) || (c =? 8287) || (c =? 12288) || (c =? 65279))%N.

(** [\d] *)
Definition is_digit (c : char16) : bool := ((48 <=? c) && (c <=? 57))%N.

(** [\w] *)
Definition is_word (c : char16) : bool :=
  ((97 <=? c) && (c <=? 122) || (65 <=? c) && (c <=? 90) || is_digit c
   || (c =? 95))%N.

(** The class of the two quote characters (double and single), written
    [q] in the comments below, and its complement [^q]. *)
Definition is_quote (c : char16) : bool := ((c =? 34) || (c =? 39))%N.
Definition not_quote (c : char16) : bool := negb (is_quote c).

(** [String.prototype.trim] *)
Fixpoint trimStart (s : jsstring) : jsstring :=
  match s with
  | [] => []
  | c :: t => if is_space c then trimStart t else s
  end.

Definition trimEnd (s : jsstring) : jsstring := rev (trimStart (rev s)).
Definition trim (s : jsstring) : jsstring := trimEnd (trimStart s).

(** ** Regular expressions

    The fragment the handlers use: single code units from a class, greedy
    [*] and [+] over a class, and capturing groups (never nested, never
    under a quantifier).  Matching is the backtracking search of
    ECMAScript: a quantifier takes as much as it can and gives code units
    back one at a time when the rest of the pattern fails. *)

Inductive regex : Type :=
| Chr (p : char16 -> bool)
| Star (p : char16 -> bool)
| Plus (p : char16 -> bool)
| Group (body : list regex).

Definition pattern := list regex.

(** The literal text [s] as a pattern. *)
Definition text (s : string) : pattern := map (fun c => Chr (N.eqb c)) (js s).

Section Matcher.
  (** What a successful match hands on: the captures, in the order the
      groups closed. *)
Let captures := list jsstring.
Let cont := jsstring -> captures -> option (jsstring * captures).

Fixpoint star_loop (p : char16 -> bool) (s : jsstring)
           (k : jsstring -> option (jsstring * captures))
    : option (jsstring * captures) :=
    match s with
    | [] => k []
    | c :: t =>
      if p c then
        match star_loop p t k with
        | Some r => Some r
        | None => k s
        end
      else k s
    end.

Fixpoint match_regex (r : regex) (s : jsstring) (caps : captures) (k : cont)
           {struct r} : option (jsstring * captures) :=
    match r with
    | Chr p =>
      match s with
      | c :: t => if p c then k t caps else None
      | [] => None
      end
    | Star p => star_loop p s (fun s' => k s' caps)
    | Plus p =>
      match s with
      | c :: t => if p c then star_loop p t (fun s' => k s' caps) else None
      | [] => None
      end
    | Group body =>
      (fix match_seq (rs : list regex) (s1 : jsstring) (c1 : captures)
           (k1 : cont) {struct rs} : option (jsstring * captures) :=
         match rs with
         | [] => k1 s1 c1
         | r1 :: rs1 =>
           match_regex r1 s1 c1 (fun s2 c2 => match_seq rs1 s2 c2 k1)
         end) body s caps
        (fun s_end c_end =>
           k s_end (c_end ++ [firstn (List.length s - List.length s_end) s]))
    end.

Fixpoint match_pattern (rs : pattern) (s : jsstring) (caps : captures)
           (k : cont) : option (jsstring * captures) :=
    match rs with
    | [] => k s caps
    | r :: rs' =>
      match_regex r s caps (fun s' caps' => match_pattern rs' s' caps' k)
    end.

  (** A match attempt anchored at the head of [s]: the array
      [[whole, group 1, ...]] on success. *)
Definition match_here (pat : pattern) (s : jsstring) : option (list jsstring) :=
    match match_pattern pat s [] (fun rest caps => Some (rest, caps)) with
    | Some (rest, caps) => Some (firstn (List.length s - List.length rest) s :: caps)
    | None => None
    end.
End Matcher.

(** [String.prototype.match] with a pattern without the [g] flag: the
    attempt is made at every start index from the left, the end of the
    string included; the first success wins, [None] is JavaScript's
    [null]. *)
Fixpoint String_match (s : jsstring) (pat : pattern) : option (list jsstring) :=
  match match_here pat s with
  | Some m => Some m
  | None =>
    match s with
    | [] => None
    | _ :: t => String_match t pat
    end
  end.

(** [m[1]] *)
Definition group1 (m : list jsstring) : jsstring := nth 1 m [].

(** ** Numbers *)

Local Open Scope Z_scope.

(** [parseInt(string)] with no radix argument.  The result is the
    mathematical integer ECMAScript computes before it converts it to a
    Number; [None] is [NaN]. *)
Definition digit_value (radix : Z) (c : char16) : option Z :=
  let v :=
    if is_digit c then Some (Z.of_N c - 48)
    else if ((97 <=? c) && (c <=? 122))%N then Some (Z.of_N c - 97 + 10)
    else if ((65 <=? c) && (c <=? 90))%N then Some (Z.of_N c - 65 + 10)
    else None in
  match v with
  | Some d => if d <? radix then Some d else None
  | None => None
  end%Z.

Fixpoint parse_digits (radix : Z) (s : jsstring) (acc : option Z) : option Z :=
  match s with
  | [] => acc
  | c :: t =>
    match digit_value radix c with
    | Some d =>
      parse_digits radix t
        (Some (radix * match acc with Some a => a | None => 0 end + d)%Z)
    | None => acc
    end
  end.

(** A leading [-] or [+], and then a leading [0x] or [0X], which switches
    to radix 16. *)
Definition strip_sign (s : jsstring) : Z * jsstring :=
  match s with
  | c :: t =>
    if (c =? 45)%N then (-1, t) else if (c =? 43)%N then (1, t) else (1, s)
  | [] => (1, s)
  end.

Definition strip_radix_prefix (s : jsstring) : Z * jsstring :=
  match s with
  | c :: x :: t =>
    if ((c =? 48) && ((x =? 120) || (x =? 88)))%N then (16, t) else (10, s)
  | _ => (10, s)
  end.

Definition parseInt (s : jsstring) : option Z :=
  let '(sign, s2) := strip_sign (trimStart s) in
  let '(radix, s3) := strip_radix_prefix s2 in
  match parse_digits radix s3 None with
  | Some z => Some (sign * z)
  | None => None
  end.

(** [x <= 0] on the result of [parseInt].  The conversion to a Number
    rounds to nearest, so it keeps zero and the sign; a comparison with
    [NaN] is false. *)
Definition le_zero (x : option Z) : bool :=
  match x with
  | Some z => (z <=? 0)%Z
  | None => false
  end.

(** The decimal numeral of an integer. *)
Definition decimal (z : Z) : jsstring := js (NilZero.string_of_int (Z.to_int z)).

(** What the handlers need of IEEE binary64 and is not arithmetic on small
    integers: the Number nearest to a mathematical integer, and
    [Number::toString], which writes an integer below 2^53 as its decimal
    numeral. *)
Class NumberRuntime : Type := {
  number : Type;
  Number_of_int : Z -> number;
  Number_NaN : number;
  Number_toString : number -> jsstring;
  toString_safe_int :
    forall z, (0 <= z < 2 ^ 53)%Z -> Number_toString (Number_of_int z) = decimal z
}.

(** An instance with the integers (and [NaN]) as the only numbers. *)
#[export, refine] Instance integer_runtime : NumberRuntime := {|
  number := option Z;
  Number_of_int := Some;
  Number_NaN := None;
  Number_toString := fun x =>
    match x with Some z => decimal z | None => js "NaN" end
|}.
Proof. reflexivity. Defined.

(** ** [Math.random] and the execution time

    A Number in [0, 1) is [mantissa * 2^(-neg_exponent)] with a mantissa of
    at most 53 bits. *)
Record unit_double : Type := { mantissa : Z; neg_exponent : Z }.


(** Round to nearest, ties to even, of the integer [p] to 53 significant
    bits: the result [(q, k)] stands for [q * 2^k]. *)
Definition round53 (p : Z) : Z * Z :=
  let k := Z.max 0 (Z.log2 p + 1 - 53) in
  let q := Z.shiftr p k in
  let rest := Z.land p (Z.ones k) in
  let half := Z.shiftl 1 (k - 1) in
  let up := (half <? rest) || (half =? rest) && Z.odd q in
  ((if (0 <? k) && up then q + 1 else q), k)%Z.

(** [r * 100] in binary64: 100 is [25 * 2^2], the exact product is rounded
    once.  The result [(q, e)] stands for [q * 2^e]; its exponent stays
    above the subnormal range. *)
Definition times100 (r : unit_double) : Z * Z :=
  let '(q, k) := round53 (25 * mantissa r) in (q, k + 2 - neg_exponent r)%Z.

Definition Math_floor (x : Z * Z) : Z :=
  let '(q, e) := x in
  if (0 <=? e)%Z then Z.shiftl q e else Z.shiftr q (- e).

(** [Math.floor(Math.random() * 100) + 50], [r] being the draw. *)
Definition execution_time_of (r : unit_double) : Z :=
  (Math_floor (times100 r) + 50)%Z.

(** ** JSON values *)

Section Values.
Context {RT : NumberRuntime}.

Inductive JSValue : Type :=
  | JUndefined
  | JNull
  | JBool (b : bool)
  | JNumber (x : number)
  | JString (s : jsstring)
  | JArray (xs : list JSValue)
  | JObject (fields : list (jsstring * JSValue)).

  (** [Array.prototype.join] on strings. *)
Fixpoint join_strings (sep : jsstring) (l : list jsstring) : jsstring :=
    match l with
    | [] => []
    | [x] => x
    | x :: rest => x ++ sep ++ join_strings sep rest
    end.

  (** [ToString]; an array is its elements joined by a comma, where
      [undefined] and [null] count as the empty string. *)
Fixpoint ToString (v : JSValue) : jsstring :=
    match v with
    | JUndefined => js "undefined"
    | JNull => js "null"
    | JBool true => js "true"
    | JBool false => js "false"
    | JNumber x => Number_toString x
    | JString s => s
    | JArray xs =>
      join_strings (js ",")
        (map (fun x =>
                match x with
                | JUndefined | JNull => []
                | _ => ToString x
                end) xs)
    | JObject _ => js "[object Object]"
    end.

Definition join_element (v : JSValue) : jsstring :=
    match v with
    | JUndefined | JNull => []
    | _ => ToString v
    end.

  (** [Array.prototype.join(sep)] *)
Definition Array_join (xs : list JSValue) (sep : jsstring) : jsstring :=
    join_strings sep (map join_element xs).

  (** [Array.prototype.map] with the index passed along. *)
Fixpoint map_indexed {A B : Type} (f : A -> Z -> B) (i : Z) (l : list A) : list B :=
    match l with
    | [] => []
    | x :: rest => f x i :: map_indexed f (i + 1)%Z rest
    end.
End Values.

(** ** Data model *)

Section Handlers.
Context {RT : NumberRuntime}.

(** A test case of a problem, [{ input, expected }]. *)
Record TestCase : Type := { input : JSValue; expected : JSValue }.

(** One entry of [test_results]; [None] in [tr_error] is JSON [null]. *)
Record TestResult : Type := {
  test_case : Z;
  passed : bool;
  tr_input : JSValue;
  tr_expected : JSValue;
  actual : JSValue;
  tr_error : option jsstring
}.

Record Progress : Type := {
  is_completed : bool;
  attempts : Z;
  best_time : option Z
}.

(** The JSON body both handlers answer with; [/api/execute-code] sends no
    [progress] field. *)
Record Result : Type := {
  success : bool;
  execution_time : Z;
  test_results : list TestResult;
  output : jsstring;
  error : option jsstring;
  progress : option Progress
}.

(** The columns of the [problems] and [user_progress] tables
    ([shared/schema.ts]) that matter to a submission. *)
Record Problem : Type := {
  id : Z;
  title : jsstring;
  testCases : list TestCase
}.

Record UserProgress : Type := {
  userId : jsstring;
  problemId : Z;
  isCompleted : bool;
  stored_attempts : Z;
  bestTime : option Z
}.

Record Database : Type := {
  problems : list Problem;
  userProgress : list UserProgress
}.

(** ** The patterns of the handlers *)

(** [/name\s*=\s*q([^q]+)q/] *)
Definition re_name : pattern :=
  text "name" ++ [Star is_space; Chr (N.eqb 61); Star is_space;
                  Chr is_quote; Group [Plus not_quote]; Chr is_quote].

(** [/age\s*=\s*(\d+)/] *)
Definition re_age : pattern :=
  text "age" ++ [Star is_space; Chr (N.eqb 61); Star is_space;
                 Group [Plus is_digit]].

(** [/city\s*=\s*q([^q]+)q/] *)
Definition re_city : pattern :=
  text "city" ++ [Star is_space; Chr (N.eqb 61); Star is_space;
                  Chr is_quote; Group [Plus not_quote]; Chr is_quote].

(** [/profession\s*=\s*q([^q]+)q/] *)
Definition re_profession : pattern :=
  text "profession" ++ [Star is_space; Chr (N.eqb 61); Star is_space;
                        Chr is_quote; Group [Plus not_quote]; Chr is_quote].

(** [/def\s+(\w+)/] *)
Definition re_def : pattern :=
  text "def" ++ [Plus is_space; Group [Plus is_word]].

(** ** Pieces shared by the two handlers *)

(** [!m || m[1].trim() === ''] *)
Definition missing_or_blank (m : option (list jsstring)) : bool :=
  match m with
  | None => true
  | Some a => jsstring_eqb (trim (group1 a)) []
  end.

(** [!m || parseInt(m[1]) <= 0] *)
Definition missing_or_not_positive (m : option (list jsstring)) : bool :=
  match m with
  | None => true
  | Some a => le_zero (parseInt (group1 a))
  end.

(** One [if (...) { errors.push(msg); valid = false; }] step on the pair
    (valid, errors). *)
Definition check (failed : bool) (msg : jsstring) (st : bool * list jsstring)
  : bool * list jsstring :=
  if failed then (false, snd st ++ [msg]) else st.

(** The two halves of the pair agree: valid exactly when nothing was
    pushed. *)
Definition consistent (st : bool * list jsstring) : Prop :=
  fst st = true <-> snd st = [].

(** A multi-line template literal: its lines, joined by line feeds. *)
Definition template (lines : list jsstring) : jsstring :=
  join_strings [10%N] lines.

(** [`${x}`] for a value that may be [null]. *)
Definition nullable (x : option jsstring) : jsstring :=
  match x with
  | Some s => s
  | None => js "null"
  end.

(** The four values drawn from the code and the tuple they are shown as. *)
Definition business_card_display (code : jsstring) : jsstring :=
  let nameMatch := String_match code re_name in
  let ageMatch := String_match code re_age in
  let cityMatch := String_match code re_city in
  let professionMatch := String_match code re_profession in
  let v0 := match nameMatch with Some m => group1 m | None => js "unknown" end in
  let v1 :=
    match ageMatch with
    | Some m =>
      match parseInt (group1 m) with
      | Some z => Number_of_int z
      | None => Number_NaN
      end
    | None => Number_of_int 0
    end in
  let v2 := match cityMatch with Some m => group1 m | None => js "unknown" end in
  let v3 := match professionMatch with Some m => group1 m | None => js "unknown" end in
  js "('" ++ v0 ++ js "', " ++ Number_toString v1 ++ js ", '" ++ v2
     ++ js "', '" ++ v3 ++ js "')".

(** [functionMatch ? functionMatch[1] : 'your_function'] *)
Definition function_name (code : jsstring) : jsstring :=
  match String_match code re_def with
  | Some m => group1 m
  | None => js "your_function"
  end.

Definition message_let : jsstring :=
  js "Python uses variable assignment without 'let' keyword. Use: name = "
     ++ dquote ++ js "value" ++ dquote.

Definition hasFunction (code : jsstring) : bool := includes code (js "def ").
Definition hasReturn (code : jsstring) : bool := includes code (js "return").

(** ** [POST /api/execute-code] *)

Definition execute_syntaxErrors (code : jsstring) : list jsstring :=
  (if includes code (js "let ") then [message_let] else [])
  ++ (if includes code (js "const ")
      then [js "Python doesn't use 'const'. Use: variable = value"] else [])
  ++ (if includes code (js "var ")
      then [js "Python doesn't use 'var'. Use: variable = value"] else []).

(** The pair ([contentValidation], [contentErrors]). *)
Definition execute_content (code : jsstring) : bool * list jsstring :=
  if includes code (js "create_business_card") then
    let nameMatch := String_match code re_name in
    let ageMatch := String_match code re_age in
    let cityMatch := String_match code re_city in
    let professionMatch := String_match code re_profession in
    check (missing_or_blank professionMatch)
          (js "Profession must be a non-empty string")
      (check (missing_or_blank cityMatch)
             (js "City must be a non-empty string")
         (check (missing_or_not_positive ageMatch)
                (js "Age must be a positive number")
            (check (missing_or_blank nameMatch)
                   (js "Name must be a non-empty string")
               (true, []))))
  else (true, []).

Definition execute_success (code : jsstring) : bool :=
  hasFunction code && hasReturn code
  && (match execute_syntaxErrors code with [] => true | _ => false end)
  && fst (execute_content code).

(** [primaryError], computed on the failure branch only. *)
Definition execute_primaryError (code : jsstring) : jsstring :=
  match execute_syntaxErrors code with
  | e :: _ => e
  | [] =>
    match snd (execute_content code) with
    | e :: _ => e
    | [] =>
      if negb (hasFunction code) then js "Missing function definition"
      else if negb (hasReturn code) then js "Missing return statement"
      else js "Unknown error"
    end
  end.

(** [resultDisplay] of the success branch. *)
Definition execute_resultDisplay (code : jsstring) (test_cases : list TestCase)
  : jsstring :=
  if jsstring_eqb (function_name code) (js "create_business_card") then
    business_card_display code
  else
    let expectedResult :=
      match test_cases with
      | [] => JUndefined
      | t :: _ => expected t
      end in
    match expectedResult with
    | JArray xs =>
      js "("
         ++ Array_join
              (map (fun val =>
                      match val with
                      | JString s => JString (js "'" ++ s ++ js "'")
                      | _ => val
                      end) xs)
              (js ", ")
         ++ js ")"
    | JString s => js "'" ++ s ++ js "'"
    | v => ToString v
    end.

Definition execute_success_output (functionName resultDisplay : jsstring) : jsstring :=
  template
    [ [];
      js "┌─ Python Console ─────────────────────────────────┐";
      js "│                                                  │";
      js "│  >>> " ++ functionName ++ js "()                           │";
      js "│  " ++ resultDisplay ++ js "                                │";
      js "│                                                  │";
      js "└──────────────────────────────────────────────────┘";
      [];
      js "    ✅ Execution Successful";
      js "    ";
      js "    Your function ran without errors and returned:";
      js "    " ++ resultDisplay;
      js "    ";
      js "    Ready to submit your solution!" ].

Definition execute_failure_output (hasFunction hasReturn hasValidPythonSyntax contentValidation : bool)
           (primaryError : jsstring) : jsstring :=
  template
    [ [];
      js "┌─ Python Console ─────────────────────────────────┐";
      js "│                                                  │";
      js "│  >>> Running your code...                       │";
      js "│  Error: " ++ primaryError ++ js "                          │";
      js "│                                                  │";
      js "└──────────────────────────────────────────────────┘";
      [];
      js "    ❌ Execution Failed";
      js "    ";
      js "    Code Analysis:";
      js "    " ++ (if negb hasFunction then js "    ❌ Function definition: Missing" else js "    ✅ Function definition: Complete");
      js "    " ++ (if negb hasReturn then js "    ❌ Return statement: Missing" else js "    ✅ Return statement: Present");
      js "    " ++ (if negb hasValidPythonSyntax then js "    ❌ Python syntax: Invalid" else js "    ✅ Python syntax: Valid");
      js "    " ++ (if negb contentValidation then js "    ❌ Variable assignments: Invalid" else js "    ✅ Variable assignments: Valid");
      js "    ";
      js "    Issue Details:";
      js "    " ++ primaryError;
      js "    ";
      js "    Fix the above issues and try again." ].

Definition execute_code (code : jsstring) (test_cases : list TestCase)
           (random : unit_double) : Result :=
  let syntaxErrors := execute_syntaxErrors code in
  let hasValidPythonSyntax :=
    match syntaxErrors with [] => true | _ => false end in
  let contentValidation := fst (execute_content code) in
  let success := execute_success code in
  let outputMessage :=
    if success then
      execute_success_output (function_name code)
                             (execute_resultDisplay code test_cases)
    else
      execute_failure_output (hasFunction code) (hasReturn code)
                             hasValidPythonSyntax contentValidation
                             (execute_primaryError code) in
  {| success := success;
     execution_time := execution_time_of random;
     test_results :=
       map_indexed
         (fun testCase index =>
            {| test_case := index + 1;
               passed := success;
               tr_input := input testCase;
               tr_expected := expected testCase;
               actual := if success then expected testCase else JNull;
               tr_error :=
                 if success then None
                 else match syntaxErrors with
                      | e :: _ => Some e
                      | [] => Some (js "Function implementation incomplete")
                      end |})
         0 test_cases;
     output := outputMessage;
     error :=
       match syntaxErrors with
       | [] => None
       | _ => Some (join_strings (js ". ") syntaxErrors)
       end;
     progress := None |}.

(** ** [POST /api/submit-solution] *)

Record SubmitRequest : Type := {
  problem_id : Z;
  code : jsstring;
  user_id : jsstring
}.

Inductive Response : Type :=
| Json (body : Result)
| NotFound (message : jsstring).

Definition submit_syntaxErrors (code : jsstring) : list jsstring :=
  (if includes code (js "let ") then [message_let] else [])
  ++ (if includes code (js "const ") || includes code (js "var ")
      then [js "Python doesn't use 'const' or 'var'. Use: variable = value"]
      else []).

(** The pair ([problemSpecificValidation], [validationErrors]). *)
Definition submit_content (problemData : Problem) (code : jsstring)
  : bool * list jsstring :=
  if jsstring_eqb (title problemData) (js "Personal Information Card") then
    let nameMatch := String_match code re_name in
    let ageMatch := String_match code re_age in
    let cityMatch := String_match code re_city in
    let professionMatch := String_match code re_profession in
    check (missing_or_blank professionMatch)
          (js "Profession variable must be assigned a non-empty string value")
      (check (missing_or_blank cityMatch)
             (js "City variable must be assigned a non-empty string value")
         (check (missing_or_not_positive ageMatch)
                (js "Age variable must be assigned a positive number")
            (check (missing_or_blank nameMatch)
                   (js "Name variable must be assigned a non-empty string value")
               (true, []))))
  else (true, []).

Definition submit_allPassed (problemData : Problem) (code : jsstring) : bool :=
  hasFunction code && hasReturn code
  && (match submit_syntaxErrors code with [] => true | _ => false end)
  && fst (submit_content problemData code).

Definition submit_errorMessage (problemData : Problem) (code : jsstring)
  : option jsstring :=
  match submit_syntaxErrors code with
  | e :: _ => Some e
  | [] =>
    if negb (hasFunction code)
    then Some (js "Missing function definition. Use 'def function_name():'")
    else if negb (hasReturn code) then Some (js "Missing return statement")
    else match snd (submit_content problemData code) with
         | e :: _ => Some e
         | [] => None
         end
  end.
Definition submit_success_output (functionName resultDisplay : jsstring) (executionTime : Z) : jsstring :=
  template
    [ [];
      js "┌─ Python Console ─────────────────────────────────┐";
      js "│                                                  │";
      js "│  >>> " ++ functionName ++ js "()                           │";
      js "│  " ++ resultDisplay ++ js "                                │";
      js "│                                                  │";
      js "└──────────────────────────────────────────────────┘";
      [];
      js "    🎉 Problem Completed Successfully!";
      js "    ";
      js "    Test Results:";
      js "    ✅ Function definition: Complete";
      js "    ✅ Return statement: Present  ";
      js "    ✅ Variable assignments: Valid";
      js "    ✅ All test cases: Passed";
      js "    ";
      js "    Execution time: " ++ Number_toString (Number_of_int executionTime) ++ js "ms";
      js "    ";
      js "    Great work! You can now:";
      js "    • Navigate to the next problem";
      js "    • Return to dashboard to see progress";
      js "    • Continue your Python journey" ].

Definition submit_failure_output (hasFunction hasReturn hasValidPythonSyntax problemSpecificValidation : bool)
           (errorMessage : option jsstring) : jsstring :=
  template
    [ [];
      js "┌─ Python Console ─────────────────────────────────┐";
      js "│                                                  │";
      js "│  >>> Running your code...                       │";
      js "│  Error: " ++ nullable errorMessage ++ js "                          │";
      js "│                                                  │";
      js "└──────────────────────────────────────────────────┘";
      [];
      js "    ❌ Submission Failed";
      js "    ";
      js "    Code Analysis:";
      js "    " ++ (if negb hasFunction then js "    ❌ Function definition: Missing" else js "    ✅ Function definition: Complete");
      js "    " ++ (if negb hasReturn then js "    ❌ Return statement: Missing" else js "    ✅ Return statement: Present");
      js "    " ++ (if negb hasValidPythonSyntax then js "    ❌ Python syntax: Invalid" else js "    ✅ Python syntax: Valid");
      js "    " ++ (if negb problemSpecificValidation then js "    ❌ Variable assignments: Invalid" else js "    ✅ Variable assignments: Valid");
      js "    ";
      js "    Issue Details:";
      js "    " ++ nullable errorMessage;
      js "    ";
      js "    Fix the above issues and try submitting again." ].


(** [database.select().from(problems).where(eq(problems.id, problem_id)).limit(1)] *)
Definition select_problem (db : Database) (problem_id : Z) : list Problem :=
  firstn 1 (filter (fun p => id p =? problem_id) (problems db)).

(** The handler reads the [problems] table and writes nothing: the
    database comes back as it went in. *)
Definition submit_solution (db : Database) (req : SubmitRequest)
           (random : unit_double) : Database * Response :=
  match select_problem db (problem_id req) with
  | [] => (db, NotFound (js "Problem not found"))
  | problemData :: _ =>
    let code := code req in
    let syntaxErrors := submit_syntaxErrors code in
    let hasValidPythonSyntax :=
      match syntaxErrors with [] => true | _ => false end in
    let problemSpecificValidation := fst (submit_content problemData code) in
    let allPassed := submit_allPassed problemData code in
    let errorMessage := submit_errorMessage problemData code in
    let executionTime := execution_time_of random in
    let testResults :=
      map_indexed
        (fun testCase index =>
           {| test_case := index + 1;
              passed := allPassed;
              tr_input := input testCase;
              tr_expected := expected testCase;
              actual := if allPassed then expected testCase else JNull;
              tr_error := if allPassed then None else errorMessage |})
        0 (testCases problemData) in
    let outputMessage :=
      if allPassed then
        submit_success_output (function_name code) (business_card_display code)
                              executionTime
      else
        submit_failure_output (hasFunction code) (hasReturn code)
                              hasValidPythonSyntax problemSpecificValidation
                              errorMessage in
    (db,
     Json {| success := allPassed;
             execution_time := executionTime;
             test_results := testResults;
             output := outputMessage;
             error := if allPassed then None else errorMessage;
             progress :=
               Some {| is_completed := allPassed;
                       attempts := 1;
                       best_time := if allPassed then Some executionTime else None |} |})
  end.

(** ** Sample data

    The business-card submission of the specification's scenarios,
    [age_text] being what the code binds [age] to. *)
Definition line_feed : jsstring := [10%N].

Definition business_card_code (age_text : jsstring) : jsstring :=
  js "def create_business_card():" ++ line_feed
  ++ js "  name = " ++ dquote ++ js "Ann" ++ dquote ++ line_feed
  ++ js "  age = " ++ age_text ++ line_feed
  ++ js "  city = " ++ dquote ++ js "Linz" ++ dquote ++ line_feed
  ++ js "  profession = " ++ dquote ++ js "Engineer" ++ dquote ++ line_feed
  ++ js "  return (name, age, city, profession)".

Definition business_card_tuple : jsstring :=
  js "('Ann', 30, 'Linz', 'Engineer')".

(** A function that declares a variable the JavaScript way. *)
Definition let_code : jsstring :=
  js "def double(x):" ++ line_feed
  ++ js "  let x = 5" ++ line_feed
  ++ js "  return x * 2".

(** The business-card problem as the content store holds it. *)
Definition business_card_problem : Problem :=
  {| id := 1;
     title := js "Personal Information Card";
     testCases :=
       [ {| input := JNull;
            expected :=
              JArray [JString (js "Ann"); JNumber (Number_of_int 30);
                      JString (js "Linz"); JString (js "Engineer")] |} ] |}.

Definition sample_database (rows : list UserProgress) : Database :=
  {| problems := [business_card_problem]; userProgress := rows |}.

Definition sample_request (code : jsstring) : SubmitRequest :=
  {| problem_id := 1; code := code; user_id := js "demo_user" |}.

(** A draw of [Math.random]: one half. *)
Definition sample_draw : unit_double := {| mantissa := 1; neg_exponent := 1 |}.

(** A stored row: the demo user completed problem 1 after three attempts. *)
Definition completed_row : UserProgress :=
  {| userId := js "demo_user";
     problemId := 1;
     isCompleted := true;
     stored_attempts := 3;
     bestTime := Some 90 |}.

(** What a run of the submit handler answered, and the progress in it. *)
Definition answer_of (r : Database * Response) : option Result :=
  match snd r with
  | Json body => Some body
  | NotFound _ => None
  end.

Definition progress_of (r : Database * Response) : option Progress :=
  match answer_of r with
  | Some body => progress body
  | None => None
  end.

(** A call of the function, with no definition around it. *)
Definition bare_call_code : jsstring := js "create_business_card()".


(** The progress rule as the specification words it: one more attempt on
    every submission, and completion that sticks. *)
Definition spec_sticky_progress (previous current : Progress) (success : bool) : Prop :=
  attempts current = attempts previous + 1
  /\ is_completed current = success || is_completed previous.


(** A numeral of a positive integer: decimal digits, not all of them 0. *)
Definition positive_integer_numeral (s : jsstring) : bool :=
  negb (jsstring_eqb s []) && forallb is_digit s
  && negb (forallb (N.eqb 48) s).

(** ** Further sample data and predicates *)


(** The text [code] holds the binding of [field] to a quoted text that has
    no quote character inside and is not blank: the name of the field,
    optional white space, an equals sign, optional white space, a quote
    character, the text, a quote character. *)
Definition holds_quoted_binding (code : jsstring) (field : string) : Prop :=
  exists pre ws1 ws2 q1 value q2 rest,
    code = pre ++ js field ++ ws1 ++ [61%N] ++ ws2
               ++ [q1] ++ value ++ [q2] ++ rest
    /\ forallb is_space ws1 = true /\ forallb is_space ws2 = true
    /\ is_quote q1 = true /\ is_quote q2 = true
    /\ forallb not_quote value = true
    /\ existsb (fun c => negb (is_space c)) value = true.


End Handlers.

(** ** The content tables and the two read handlers

    [GET /api/dashboard/:userId] and [GET /api/problems/:problemId] of
    [server/routes.ts], over the rows of [shared/schema.ts].  A [jsonb]
    column is a [JSValue]; a nullable column is an [option], [null] where
    the [jsonb] itself may be null. *)

Module SectionsTable.
Record row : Type := {
  id : Z;
  title : jsstring;
  description : jsstring;
  orderIndex : Z;
  isLocked : bool
}.
End SectionsTable.

Module LessonsTable.
Record row : Type := {
  id : Z;
  sectionId : Z;
  title : jsstring;
  description : jsstring;
  orderIndex : Z;
  isLocked : bool
}.
End LessonsTable.

Module ProblemsTable.
Section Rows.
Context {RT : NumberRuntime}.
Record row : Type := {
  id : Z;
  lessonId : Z;
  title : jsstring;
  description : jsstring;
  difficulty : jsstring;
  orderIndex : Z;
  starterCode : jsstring;
  solution : jsstring;
  testCases : JSValue;
  hints : JSValue;
  xpReward : Z;
  researchTopics : JSValue;
  learningObjectives : JSValue;
  professionalContext : option jsstring;
  businessCategory : option jsstring
}.
End Rows.
End ProblemsTable.

Module Dashboard.
Section Handler.
Context {RT : NumberRuntime}.

(** [{ ...problem, is_completed, attempts, best_time }] *)
Record ProblemWithProgress : Type := {
  problem : ProblemsTable.row;
  is_completed : bool;
  attempts : Z;
  best_time : option Z
}.

(** [{ ...lesson, problems, completed_problems, total_problems }] *)
Record LessonWithProgress : Type := {
  lesson : LessonsTable.row;
  problems : list ProblemWithProgress;
  completed_problems : Z;
  total_problems : Z
}.

(** [{ ...section, lessons, completed_lessons, total_lessons }] *)
Record SectionWithProgress : Type := {
  section : SectionsTable.row;
  lessons : list LessonWithProgress;
  completed_lessons : Z;
  total_lessons : Z
}.

(** [userProgress.find(p => p.problemId === problem.id)] and the three
    fields read off it; [x || d] yields [d] when [x] is missing, [false],
    [0] or [null]. *)
Definition problemWithProgress (userProgress : list UserProgress)
           (problem : ProblemsTable.row) : ProblemWithProgress :=
  let progress :=
    find (fun p => problemId p =? ProblemsTable.id problem) userProgress in
  {| problem := problem;
     is_completed :=
       match progress with
       | Some p => isCompleted p || false
       | None => false
       end;
     attempts :=
       match progress with
       | Some p => if stored_attempts p =? 0 then 0 else stored_attempts p
       | None => 0
       end;
     best_time :=
       match progress with
       | Some p =>
         match bestTime p with
         | Some t => if t =? 0 then None else Some t
         | None => None
         end
       | None => None
       end |}.

Definition lessonWithProgress (problems : list ProblemsTable.row)
           (userProgress : list UserProgress) (lesson : LessonsTable.row)
  : LessonWithProgress :=
  let lessonProblems :=
    filter (fun p => ProblemsTable.lessonId p =? LessonsTable.id lesson)
           problems in
  let problemsWithProgress :=
    map (problemWithProgress userProgress) lessonProblems in
  {| lesson := lesson;
     problems := problemsWithProgress;
     completed_problems :=
       Z.of_nat (List.length (filter is_completed problemsWithProgress));
     total_problems := Z.of_nat (List.length problemsWithProgress) |}.

Definition sectionWithProgress (lessons : list LessonsTable.row)
           (problems : list ProblemsTable.row)
           (userProgress : list UserProgress) (section : SectionsTable.row)
  : SectionWithProgress :=
  let sectionLessons :=
    filter (fun l => LessonsTable.sectionId l =? SectionsTable.id section)
           lessons in
  let lessonsWithProgress :=
    map (lessonWithProgress problems userProgress) sectionLessons in
  {| section := section;
     lessons := lessonsWithProgress;
     completed_lessons :=
       Z.of_nat
         (List.length
            (filter (fun l => (completed_problems l =? total_problems l)
                              && (0 <? total_problems l))
                    lessonsWithProgress));
     total_lessons := Z.of_nat (List.length lessonsWithProgress) |}.

(** [sectionsWithProgress] *)
Definition sectionsWithProgress (sections : list SectionsTable.row)
           (lessons : list LessonsTable.row)
           (problems : list ProblemsTable.row)
           (userProgress : list UserProgress) : list SectionWithProgress :=
  map (sectionWithProgress lessons problems userProgress) sections.

(** The three nested loops that look for the current problem.  The
    innermost stops at the first problem that is not completed; each outer
    loop stops as soon as a problem has been found. *)
Fixpoint firstOpenProblem (ps : list ProblemWithProgress)
  : option ProblemWithProgress :=
  match ps with
  | [] => None
  | p :: rest => if negb (is_completed p) then Some p else firstOpenProblem rest
  end.

Fixpoint searchLessons (ls : list LessonWithProgress)
  : option ProblemWithProgress :=
  match ls with
  | [] => None
  | l :: rest =>
    if negb (LessonsTable.isLocked (lesson l)) then
      match firstOpenProblem (problems l) with
      | Some p => Some p
      | None => searchLessons rest
      end
    else searchLessons rest
  end.

Fixpoint currentProblem (ss : list SectionWithProgress)
  : option ProblemWithProgress :=
  match ss with
  | [] => None
  | s :: rest =>
    if negb (SectionsTable.isLocked (section s)) then
      match searchLessons (lessons s) with
      | Some p => Some p
      | None => currentProblem rest
      end
    else currentProblem rest
  end.

(** [totalProblems], the two nested [reduce]. *)
Definition totalProblems (ss : list SectionWithProgress) : Z :=
  fold_left
    (fun acc s =>
       acc + fold_left
               (fun lessonAcc l =>
                  lessonAcc + Z.of_nat (List.length (problems l)))
               (lessons s) 0)
    ss 0.

(** The problems a user may work on, in reading order: those of the
    unlocked lessons of the unlocked sections. *)
Definition openProblems (ss : list SectionWithProgress)
  : list ProblemWithProgress :=
  flat_map
    (fun s =>
       if SectionsTable.isLocked (section s) then []
       else flat_map
              (fun l =>
                 if LessonsTable.isLocked (lesson l) then [] else problems l)
              (lessons s))
    ss.

End Handler.
End Dashboard.

Module ProblemDetails.
Section Handler.
Context {RT : NumberRuntime}.

Record Progress : Type := {
  is_completed : bool;
  attempts : Z;
  best_time : option Z;
  hints_used : Z
}.

Record Breadcrumb : Type := {
  section : jsstring;
  lesson : jsstring
}.

Record Body : Type := {
  id : Z;
  title : jsstring;
  description : jsstring;
  difficulty : jsstring;
  order_index : Z;
  starter_code : jsstring;
  hints : JSValue;
  xp_reward : Z;
  test_cases : JSValue;
  progress : Progress;
  breadcrumb : Breadcrumb
}.

Inductive Response : Type :=
| Ok (body : Body)
| NotFound (message : jsstring)
| ServerError (message : jsstring).

Record Tables : Type := {
  problems : list ProblemsTable.row;
  lessons : list LessonsTable.row;
  sections : list SectionsTable.row
}.

(** The handler, from the parsed [problemId] on.  Reading a field of
    [lesson[0]] or [section[0]] when the query found no row throws, and the
    [catch] turns that into the 500 answer. *)
Definition problem_details (db : Tables) (problemId : Z) : Response :=
  match firstn 1 (filter (fun p => ProblemsTable.id p =? problemId)
                         (problems db)) with
  | [] => NotFound (js "Problem not found")
  | problemData :: _ =>
    match firstn 1 (filter (fun l => LessonsTable.id l
                                     =? ProblemsTable.lessonId problemData)
                           (lessons db)) with
    | [] => ServerError (js "Failed to fetch problem")
    | lesson0 :: _ =>
      match firstn 1 (filter (fun s => SectionsTable.id s
                                       =? LessonsTable.sectionId lesson0)
                             (sections db)) with
      | [] => ServerError (js "Failed to fetch problem")
      | section0 :: _ =>
        Ok {| id := ProblemsTable.id problemData;
              title := ProblemsTable.title problemData;
              description := ProblemsTable.description problemData;
              difficulty := ProblemsTable.difficulty problemData;
              order_index := ProblemsTable.orderIndex problemData;
              starter_code := ProblemsTable.starterCode problemData;
              hints := ProblemsTable.hints problemData;
              xp_reward := ProblemsTable.xpReward problemData;
              test_cases := ProblemsTable.testCases problemData;
              progress := {| is_completed := false;
                             attempts := 0;
                             best_time := None;
                             hints_used := 0 |};
              breadcrumb := {| section := SectionsTable.title section0;
                               lesson := LessonsTable.title lesson0 |} |}
      end
    end
  end.

End Handler.
End ProblemDetails.

(** ** The problem page

    [pages/problem.tsx] and [components/problem-description.tsx]: the
    clock of the page and the hint counter. *)

(** [String.prototype.padStart(targetLength, padString)] *)
Definition padStart (s : jsstring) (targetLength : nat) (padString : jsstring)
  : jsstring :=
  if (targetLength <=? List.length s)%nat then s
  else
    match padString with
    | [] => s
    | _ =>
      firstn (targetLength - List.length s)
             (List.concat (repeat padString (targetLength - List.length s)))
      ++ s
    end.

Module ProblemPage.
Section Page.
Context {RT : NumberRuntime}.

(** [formatTime].  [seconds] is the whole number of seconds the page has
    been open; [Math.floor(seconds / 60)] of such a number is the quotient
    of the integer division, and [%] is the remainder that takes the sign
    of the dividend. *)
Definition formatTime (seconds : Z) : jsstring :=
  let mins := seconds / 60 in
  let secs := Z.rem seconds 60 in
  Number_toString (Number_of_int mins) ++ js ":"
  ++ padStart (Number_toString (Number_of_int secs)) 2 (js "0").

(** The state that the hint button moves: [hintsRevealed] of the
    description panel, and on the page [hintsUsed] together with the number
    of [POST /api/hint-used] requests sent. *)
Record HintState : Type := {
  hintsRevealed : Z;
  hintsUsed : Z;
  requests : Z
}.

Definition initial : HintState :=
  {| hintsRevealed := 0; hintsUsed := 0; requests := 0 |}.

(** [handleHintUsed] of the page *)
Definition handleHintUsed (st : HintState) : HintState :=
  {| hintsRevealed := hintsRevealed st;
     hintsUsed := hintsUsed st + 1;
     requests := requests st + 1 |}.

(** [handleShowHint] of the panel, [onHintUsed] being [handleHintUsed] *)
Definition handleShowHint (hints : list jsstring) (st : HintState) : HintState :=
  if hintsRevealed st <? Z.of_nat (List.length hints) then
    handleHintUsed {| hintsRevealed := hintsRevealed st + 1;
                      hintsUsed := hintsUsed st;
                      requests := requests st |}
  else st.

(** [problem.hints.slice(0, hintsRevealed)], the hints on display *)
Definition revealedHints (hints : list jsstring) (st : HintState)
  : list jsstring :=
  firstn (Z.to_nat (hintsRevealed st)) hints.

(** The button is offered while [hintsRevealed < problem.hints.length];
    its label counts [problem.hints.length - hintsRevealed] hints. *)
Definition buttonOffered (hints : list jsstring) (st : HintState) : bool :=
  hintsRevealed st <? Z.of_nat (List.length hints).

Definition remaining (hints : list jsstring) (st : HintState) : Z :=
  Z.of_nat (List.length hints) - hintsRevealed st.

(** [n] clicks on the button, which stays clickable only while offered;
    a click on a button that is not there does nothing either way. *)
Fixpoint clicks (hints : list jsstring) (n : nat) (st : HintState) : HintState :=
  match n with
  | O => st
  | S m => clicks hints m (handleShowHint hints st)
  end.

End Page.
End ProblemPage.


(** The value of a decimal numeral of the standard library, read from the
    left with an accumulator. *)
Fixpoint uint_value (d : Decimal.uint) (acc : Z) : Z :=
  match d with
  | Decimal.Nil => acc
  | Decimal.D0 l => uint_value l (10 * acc + 0)
  | Decimal.D1 l => uint_value l (10 * acc + 1)
  | Decimal.D2 l => uint_value l (10 * acc + 2)
  | Decimal.D3 l => uint_value l (10 * acc + 3)
  | Decimal.D4 l => uint_value l (10 * acc + 4)
  | Decimal.D5 l => uint_value l (10 * acc + 5)
  | Decimal.D6 l => uint_value l (10 * acc + 6)
  | Decimal.D7 l => uint_value l (10 * acc + 7)
  | Decimal.D8 l => uint_value l (10 * acc + 8)
  | Decimal.D9 l => uint_value l (10 * acc + 9)
  end.


(** ** The problem statement

    [components/problem-description.tsx] turns the description of a
    problem into a list of elements, line by line.  Class names are left
    out; an element keeps its kind, its React key and what it shows. *)

(** [String.prototype.split] with a separator of one code unit *)
Fixpoint split (sep : char16) (s : jsstring) : list jsstring :=
  match s with
  | [] => [[]]
  | c :: t =>
    if (c =? sep)%N then [] :: split sep t
    else match split sep t with
         | l :: ls => (c :: l) :: ls
         | [] => [[c]]
         end
  end.

Definition endsWith (s needle : jsstring) : bool :=
  startsWith (rev s) (rev needle).

(** [String.prototype.slice(start, end)] *)
Definition slice (s : jsstring) (b e : Z) : jsstring :=
  let len := Z.of_nat (List.length s) in
  let from := if b <? 0 then Z.max (len + b) 0 else Z.min b len in
  let to := if e <? 0 then Z.max (len + e) 0 else Z.min e len in
  firstn (Z.to_nat (to - from)) (skipn (Z.to_nat from) s).

(** [String.prototype.slice(start)] with [start] not negative *)
Definition slice_from (s : jsstring) (b : nat) : jsstring := skipn b s.

Module ProblemDescription.

Definition fence : jsstring := [96%N; 96%N; 96%N].
Definition bold : jsstring := [42%N; 42%N].
Definition nbsp : jsstring := [160%N].

(** [replace(/^\*\*/, '')] *)
Definition replace_leading_bold (s : jsstring) : jsstring :=
  if startsWith s bold then skipn 2 s else s.

(** [replace(/\*\*$/, '')] *)
Definition replace_trailing_bold (s : jsstring) : jsstring :=
  if endsWith s bold then firstn (List.length s - 2) s else s.

(** [replace(/\*\*/g, '')] *)
Fixpoint replace_all_bold (s : jsstring) : jsstring :=
  match s with
  | [] => []
  | c :: t =>
    match t with
    | d :: u =>
      if ((c =? 42) && (d =? 42))%N then replace_all_bold u
      else c :: replace_all_bold t
    | [] => [c]
    end
  end.

Inductive Element : Type :=
| CodeBlock (index : Z) (codeLines : list jsstring)
| DifficultyBadge (index : Z) (shown : jsstring)
| Title (index : Z) (shown : jsstring)
| Bullet (index : Z) (shown : jsstring)
| SectionHeader (index : Z) (shown : jsstring)
| Spacer (index : Z)
| Paragraph (index : Z) (shown : jsstring).

(** The index [i] that the key of an element is made of *)
Definition index_of (e : Element) : Z :=
  match e with
  | CodeBlock i _ | DifficultyBadge i _ | Title i _ | Bullet i _
  | SectionHeader i _ | Paragraph i _ => i
  | Spacer i => i
  end.

Definition is_code_block (e : Element) : bool :=
  match e with CodeBlock _ _ => true | _ => false end.

(** [codeLine || nbsp]: an empty line of code shows as a no-break space *)
Definition code_line (codeLine : jsstring) : jsstring :=
  match codeLine with [] => nbsp | _ => codeLine end.

Record LoopState : Type := {
  elements : list Element;
  inCodeBlock : bool;
  codeBlockLines : list jsstring
}.

Definition start : LoopState :=
  {| elements := []; inCodeBlock := false; codeBlockLines := [] |}.

Definition push (e : Element) (st : LoopState) : LoopState :=
  {| elements := elements st ++ [e];
     inCodeBlock := inCodeBlock st;
     codeBlockLines := codeBlockLines st |}.

Definition is_fence (line : jsstring) : bool := startsWith line fence.

Definition is_difficulty (shown : jsstring) : bool :=
  jsstring_eqb shown (js "Easy") || jsstring_eqb shown (js "Medium")
  || jsstring_eqb shown (js "Hard").

Definition is_section_header (cleanLine : jsstring) : bool :=
  includes cleanLine (js "Description") || includes cleanLine (js "Example")
  || includes cleanLine (js "Skills") || includes cleanLine (js "Objective").

(** What a line outside a code block, and not a fence, is rendered as *)
Definition element_of (i : Z) (line : jsstring) : Element :=
  if startsWith line bold && endsWith line bold
     && (4 <? List.length line)%nat
  then
    let shown := slice line 2 (-2) in
    if is_difficulty shown then DifficultyBadge i shown else Title i shown
  else if startsWith line (js "- ") then Bullet i (slice_from line 2)
  else
    let cleanLine :=
      replace_all_bold (replace_trailing_bold (replace_leading_bold line)) in
    if includes line (js ":") && is_section_header cleanLine
    then SectionHeader i cleanLine
    else if jsstring_eqb (trim line) [] then Spacer i
    else Paragraph i line.

(** One turn of the loop *)
Definition step (i : Z) (line : jsstring) (st : LoopState) : LoopState :=
  if is_fence line then
    if inCodeBlock st then
      {| elements := elements st
                     ++ [CodeBlock i (map code_line (codeBlockLines st))];
         inCodeBlock := false;
         codeBlockLines := [] |}
    else
      {| elements := elements st;
         inCodeBlock := true;
         codeBlockLines := codeBlockLines st |}
  else if inCodeBlock st then
    {| elements := elements st;
       inCodeBlock := true;
       codeBlockLines := codeBlockLines st ++ [line] |}
  else push (element_of i line) st.

Fixpoint loop (i : Z) (lines : list jsstring) (st : LoopState) : LoopState :=
  match lines with
  | [] => st
  | line :: rest => loop (i + 1) rest (step i line st)
  end.

Definition render_lines (lines : list jsstring) : list Element :=
  elements (loop 0 lines start).

Definition render (description : jsstring) : list Element :=
  render_lines (split 10%N description).

(** No line of [lines] opens or closes a code block. *)
Definition no_fence (lines : list jsstring) : Prop :=
  forallb (fun line => negb (is_fence line)) lines = true.



End ProblemDescription.

(** A description with a heading, a badge, a closed code block holding an
    empty line and a bullet, and a code block that is never closed. *)
Definition sample_description : jsstring :=
  js "**Card**" ++ [10%N] ++ js "**Easy**" ++ [10%N]
  ++ js "Description: print a card" ++ [10%N]
  ++ ProblemDescription.fence ++ js "python" ++ [10%N]
  ++ js "- x = 1" ++ [10%N] ++ [10%N]
  ++ ProblemDescription.fence ++ [10%N]
  ++ js "- one bullet" ++ [10%N]
  ++ ProblemDescription.fence ++ [10%N]
  ++ js "lost".

(** ** Sample tables and descriptions *)

(** A request for a problem that the content store does not hold. *)
Definition unknown_request : SubmitRequest :=
  {| problem_id := 2; code := bare_call_code; user_id := js "demo_user" |}.

Definition sample_section (id : Z) (isLocked : bool) : SectionsTable.row :=
  {| SectionsTable.id := id;
     SectionsTable.title := js "Python Basics";
     SectionsTable.description := [];
     SectionsTable.orderIndex := id;
     SectionsTable.isLocked := isLocked |}.

Definition sample_lesson (id sectionId : Z) : LessonsTable.row :=
  {| LessonsTable.id := id;
     LessonsTable.sectionId := sectionId;
     LessonsTable.title := js "Variables";
     LessonsTable.description := [];
     LessonsTable.orderIndex := id;
     LessonsTable.isLocked := false |}.

Definition sample_problem_row (id lessonId : Z) : ProblemsTable.row :=
  {| ProblemsTable.id := id;
     ProblemsTable.lessonId := lessonId;
     ProblemsTable.title := js "Personal Information Card";
     ProblemsTable.description := js "**Card**";
     ProblemsTable.difficulty := js "easy";
     ProblemsTable.orderIndex := id;
     ProblemsTable.starterCode := js "def create_business_card():";
     ProblemsTable.solution := business_card_code (js "30");
     ProblemsTable.testCases := JArray [];
     ProblemsTable.hints := JArray [JString (js "Return a tuple")];
     ProblemsTable.xpReward := 10;
     ProblemsTable.researchTopics := JNull;
     ProblemsTable.learningObjectives := JNull;
     ProblemsTable.professionalContext := None;
     ProblemsTable.businessCategory := None |}.

(** Two sections, the second one locked; lesson 2 has no problem, and
    problem 4 points to a lesson that does not exist. *)
Definition sample_sections : list SectionsTable.row :=
  [sample_section 1 false; sample_section 2 true].

Definition sample_lessons : list LessonsTable.row :=
  [sample_lesson 1 1; sample_lesson 2 1; sample_lesson 3 2].

Definition sample_problem_rows : list ProblemsTable.row :=
  [sample_problem_row 1 1; sample_problem_row 2 1; sample_problem_row 3 3;
   sample_problem_row 4 9].

Definition sample_tables : ProblemDetails.Tables :=
  {| ProblemDetails.problems := sample_problem_rows;
     ProblemDetails.lessons := sample_lessons;
     ProblemDetails.sections := sample_sections |}.

(** The dashboard of a user who completed problem 1. *)
Definition sample_dashboard : list Dashboard.SectionWithProgress :=
  Dashboard.sectionsWithProgress sample_sections sample_lessons
                                 sample_problem_rows [completed_row].

(** Lines of a description: a heading, an opening fence, two lines of
    code of which one is empty, the closing fence and a bullet. *)
Definition heading_lines : list jsstring := [js "**Card**"; js "**Easy**"].
Definition opening_fence : jsstring := ProblemDescription.fence ++ js "python".
Definition code_lines : list jsstring := [js "- x = 1"; []].
Definition bullet_lines : list jsstring := [js "- one bullet"].

(** A problem other than the business card, and a passing answer to it
    that binds none of the four fields. *)
Definition greeting_problem : Problem :=
  {| id := 1; title := js "Greeting"; testCases := [] |}.

Definition greeting_code : jsstring :=
  js "def greet():" ++ line_feed ++ js "  return 1".

Definition greeting_request : SubmitRequest :=
  {| problem_id := 1; code := greeting_code; user_id := js "demo_user" |}.

Definition greeting_database : Database :=
  {| problems := [greeting_problem]; userProgress := [] |}.

(** * Properties *)

Section Properties.
Context {RT : NumberRuntime}.

(** ** The execution time *)



(** ** Substring search *)

Lemma startsWith_app (needle s t : jsstring) :
  startsWith s needle = true -> startsWith (s ++ t) needle = true.
Proof.
  revert s; induction needle as [|n ns IH]; intros [|c cs]; simpl; auto;
    try discriminate.
  - intros _; destruct t; reflexivity.
  - intros H; apply andb_true_iff in H as [H1 H2].
    rewrite H1; simpl; auto.
Qed.

Lemma startsWith_refl (s : jsstring) : startsWith s s = true.
Proof. induction s; simpl; auto. now rewrite N.eqb_refl. Qed.

Lemma includes_nil (s : jsstring) : includes s [] = true.
Proof. destruct s; reflexivity. Qed.

Lemma includes_refl (s : jsstring) : includes s s = true.
Proof. destruct s; simpl; auto. now rewrite N.eqb_refl, startsWith_refl. Qed.

Lemma includes_cons (c : char16) (s needle : jsstring) :
  includes (c :: s) needle = startsWith (c :: s) needle || includes s needle.
Proof. reflexivity. Qed.

Lemma includes_app_r (needle s t : jsstring) :
  includes t needle = true -> includes (s ++ t) needle = true.
Proof.
  intros H; induction s as [|c s IH]; auto.
  change ((c :: s) ++ t) with (c :: s ++ t).
  rewrite includes_cons, IH; apply orb_true_r.
Qed.

Lemma includes_app_l (needle s t : jsstring) :
  includes s needle = true -> includes (s ++ t) needle = true.
Proof.
  induction s as [|c s IH].
  - destruct needle; [intros _; apply includes_nil | discriminate].
  - rewrite includes_cons; intros H; apply orb_true_iff in H as [H|H].
    + change ((c :: s) ++ t) with (c :: s ++ t); rewrite includes_cons.
      change (c :: s ++ t) with ((c :: s) ++ t).
      rewrite (startsWith_app _ _ t H); reflexivity.
    + change ((c :: s) ++ t) with (c :: s ++ t).
      rewrite includes_cons, (IH H); apply orb_true_r.
Qed.

Lemma includes_join (needle sep x : jsstring) (l : list jsstring) :
  In x l -> includes x needle = true ->
  includes (join_strings sep l) needle = true.
Proof.
  intros Hin Hx; induction l as [|y l IH]; [contradiction|].
  destruct Hin as [->|Hin].
  - destruct l; simpl; auto. now apply includes_app_l.
  - destruct l as [|z l]; [contradiction|].
    change (join_strings sep (y :: z :: l))
      with (y ++ sep ++ join_strings sep (z :: l)).
    apply includes_app_r, includes_app_r, IH, Hin.
Qed.

(** ** The content checks: valid exactly when no message was pushed *)

Lemma check_consistent failed msg st :
  consistent st -> consistent (check failed msg st).
Proof.
  unfold consistent, check; destruct failed; simpl; auto.
  intros _; split; [discriminate|].
  intros H; apply app_eq_nil in H as [_ H]; discriminate.
Qed.

Lemma consistent_start : consistent (true, []).
Proof. split; reflexivity. Qed.


Lemma submit_content_consistent problemData code :
  consistent (submit_content problemData code).
Proof.
  unfold submit_content; destruct (jsstring_eqb _ _);
    repeat apply check_consistent; apply consistent_start.
Qed.

Lemma check_fst failed msg st :
  fst (check failed msg st) = negb failed && fst st.
Proof. destruct failed; reflexivity. Qed.

Lemma check_keeps msg0 failed msg st :
  In msg0 (snd st) -> In msg0 (snd (check failed msg st)).
Proof. destruct failed; simpl; auto. intros; apply in_or_app; auto. Qed.

Lemma check_pushes msg st : In msg (snd (check true msg st)).
Proof. simpl; apply in_or_app; right; left; reflexivity. Qed.

(** ** The per-case results *)


Lemma in_map_indexed {A B : Type} (f : A -> Z -> B) (y : B) :
  forall l i, In y (map_indexed f i l) -> exists x j, In x l /\ y = f x j.
Proof.
  induction l as [|a l IH]; intros i; simpl; [contradiction|].
  intros [<-|H].
  - exists a, i; auto.
  - destruct (IH _ H) as (x & j & Hx & ->); exists x, j; auto.
Qed.

(** The body a submission is answered with, when the problem exists. *)
Lemma submit_solution_found db req random problemData rest :
  select_problem db (problem_id req) = problemData :: rest ->
  exists body,
    submit_solution db req random = (db, Json body)
    /\ success body = submit_allPassed problemData (code req)
    /\ execution_time body = execution_time_of random
    /\ test_results body =
       map_indexed
         (fun testCase index =>
            {| test_case := index + 1;
               passed := success body;
               tr_input := input testCase;
               tr_expected := expected testCase;
               actual := if success body then expected testCase else JNull;
               tr_error := if success body then None
                           else submit_errorMessage problemData (code req) |})
         0 (testCases problemData)
    /\ error body = (if success body then None
                     else submit_errorMessage problemData (code req))
    /\ progress body =
       Some {| is_completed := success body;
               attempts := 1;
               best_time := if success body
                            then Some (execution_time body) else None |}
    /\ output body =
       (if success body then
          submit_success_output (function_name (code req))
                                (business_card_display (code req))
                                (execution_time body)
        else
          submit_failure_output
            (hasFunction (code req)) (hasReturn (code req))
            (match submit_syntaxErrors (code req) with [] => true | _ => false end)
            (fst (submit_content problemData (code req)))
            (submit_errorMessage problemData (code req))).
Proof.
  intros H; unfold submit_solution; rewrite H.
  eexists; split; [reflexivity|]; simpl.
  repeat split; reflexivity.
Qed.

(** ** What a match of the age pattern captures *)

Lemma star_loop_result p s (k : jsstring -> option (jsstring * list jsstring)) res :
  star_loop p s k = Some res ->
  exists run s', s = run ++ s' /\ forallb p run = true /\ k s' = Some res.
Proof.
  revert res; induction s as [|c t IH]; intros res; simpl.
  - intros H; exists [], []; auto.
  - destruct (p c) eqn:Hc.
    + destruct (star_loop p t k) as [r|] eqn:E.
      * intros [= <-]. destruct (IH _ eq_refl) as (run & s' & -> & Hrun & Hk).
        exists (c :: run), s'; simpl; rewrite Hc; auto.
      * intros H; exists [], (c :: t); auto.
    + intros H; exists [], (c :: t); auto.
Qed.

Lemma firstn_run (run s' : jsstring) :
  firstn (List.length (run ++ s') - List.length s') (run ++ s') = run.
Proof.
  rewrite length_app, Nat.add_sub.
  rewrite firstn_app, Nat.sub_diag, firstn_all; simpl; apply app_nil_r.
Qed.

Lemma match_chr p s caps k res :
  match_regex (Chr p) s caps k = Some res ->
  exists c t, s = c :: t /\ p c = true /\ k t caps = Some res.
Proof.
  simpl; destruct s as [|c t]; [discriminate|].
  destruct (p c) eqn:Hc; [|discriminate]. intros H; exists c, t; auto.
Qed.

Lemma match_star p s caps k res :
  match_regex (Star p) s caps k = Some res ->
  exists run s', s = run ++ s' /\ forallb p run = true /\ k s' caps = Some res.
Proof. simpl; apply star_loop_result. Qed.

Lemma match_plus p s caps k res :
  match_regex (Plus p) s caps k = Some res ->
  exists run s', s = run ++ s' /\ run <> [] /\ forallb p run = true
                 /\ k s' caps = Some res.
Proof.
  simpl; destruct s as [|c t]; [discriminate|].
  destruct (p c) eqn:Hc; [|discriminate]. intros H.
  apply star_loop_result in H as (run & s' & -> & Hrun & Hk).
  exists (c :: run), s'; simpl; rewrite Hc; repeat split; auto; discriminate.
Qed.

Lemma match_group_plus p s caps k res :
  match_regex (Group [Plus p]) s caps k = Some res ->
  exists run s', s = run ++ s' /\ run <> [] /\ forallb p run = true
                 /\ k s' (caps ++ [run]) = Some res.
Proof.
  intros H.
  change (match_regex (Plus p) s caps
            (fun s_end c_end =>
               k s_end (c_end ++ [firstn (List.length s - List.length s_end) s]))
          = Some res) in H.
  apply match_plus in H as (run & s' & -> & Hne & Hrun & Hk).
  rewrite firstn_run in Hk. exists run, s'; auto.
Qed.
Lemma match_here_age s a :
  match_here re_age s = Some a ->
  exists ws1 ws2 digits rest,
    s = js "age" ++ ws1 ++ [61%N] ++ ws2 ++ digits ++ rest
    /\ forallb is_space ws1 = true /\ forallb is_space ws2 = true
    /\ digits <> [] /\ forallb is_digit digits = true
    /\ group1 a = digits.
Proof.
  unfold match_here.
  destruct (match_pattern re_age s [] _) as [[rest caps]|] eqn:E; [|discriminate].
  intros [= <-].
  change re_age with [Chr (N.eqb 97); Chr (N.eqb 103); Chr (N.eqb 101); Star is_space; Chr (N.eqb 61); Star is_space; Group [Plus is_digit]] in E.
  cbn [match_pattern] in E.
  apply match_chr in E as (c1 & t1 & -> & H1 & E).
  apply match_chr in E as (c2 & t2 & -> & H2 & E).
  apply match_chr in E as (c3 & t3 & -> & H3 & E).
  apply match_star in E as (ws1 & t4 & -> & Hws1 & E).
  apply match_chr in E as (c4 & t5 & -> & H4 & E).
  apply match_star in E as (ws2 & t6 & -> & Hws2 & E).
  apply match_group_plus in E as (digits & t7 & -> & Hne & Hd & E).
  injection E as <- <-.
  apply N.eqb_eq in H1, H2, H3, H4; subst.
  exists ws1, ws2, digits, t7; repeat split; auto.
Qed.

Lemma String_match_age code a :
  String_match code re_age = Some a ->
  exists pre ws1 ws2 digits rest,
    code = pre ++ js "age" ++ ws1 ++ [61%N] ++ ws2 ++ digits ++ rest
    /\ forallb is_space ws1 = true /\ forallb is_space ws2 = true
    /\ digits <> [] /\ forallb is_digit digits = true
    /\ group1 a = digits.
Proof.
  induction code as [|c code IH].
  - discriminate.
  - cbn [String_match]. destruct (match_here re_age (c :: code)) eqn:E.
    + intros [= ->]. apply match_here_age in E as (w1 & w2 & d & r & H & ?).
      exists [], w1, w2, d, r; auto.
    + intros H; destruct (IH H) as (pre & w1 & w2 & d & r & -> & ?).
      exists (c :: pre), w1, w2, d, r; auto.
Qed.

Lemma is_digit_range c : is_digit c = true -> (48 <= c <= 57)%N.
Proof.
  unfold is_digit; intros H; apply andb_true_iff in H as [H1 H2].
  apply N.leb_le in H1, H2; lia.
Qed.

Lemma digit_value_digit c :
  is_digit c = true -> digit_value 10 c = Some (Z.of_N c - 48).
Proof.
  intros H; unfold digit_value; rewrite H.
  apply is_digit_range in H.
  destruct (Z.ltb_spec (Z.of_N c - 48) 10); [reflexivity|lia].
Qed.

Lemma parse_digits_digits s :
  forallb is_digit s = true ->
  forall a, 0 <= a ->
  exists z, parse_digits 10 s (Some a) = Some z /\ a <= z
            /\ (z = 0 <-> a = 0 /\ forallb (N.eqb 48) s = true).
Proof.
  induction s as [|c s IH]; intros Hs a Ha; cbn [parse_digits].
  - exists a; repeat split; auto; lia.
  - simpl in Hs; apply andb_true_iff in Hs as [Hc Hs].
    rewrite (digit_value_digit _ Hc).
    pose proof (is_digit_range _ Hc) as Hr.
    destruct (IH Hs (10 * a + (Z.of_N c - 48))) as (z & -> & Hz & Hiff); [lia|].
    exists z; split; [reflexivity|]. split; [lia|].
    cbn [forallb]; rewrite andb_true_iff, N.eqb_eq. split.
    + intros H; apply Hiff in H; destruct H as [H1 H2]. repeat split; auto; lia.
    + intros (-> & H1 & H2); apply Hiff; split; auto; lia.
Qed.

Lemma parseInt_digits s :
  s <> [] -> forallb is_digit s = true ->
  exists z, parseInt s = Some z /\ 0 <= z
            /\ (z = 0 <-> forallb (N.eqb 48) s = true).
Proof.
  intros Hne Hs. destruct s as [|c s]; [contradiction|].
  pose proof Hs as Hs0.
  simpl in Hs; apply andb_true_iff in Hs as [Hc Hs].
  pose proof (is_digit_range _ Hc) as Hr.
  assert (Hsp : is_space c = false).
  { unfold is_space.
    repeat match goal with
           | |- context [(?a <=? ?b)%N] => destruct (N.leb_spec a b); try lia
           | |- context [(?a =? ?b)%N] => destruct (N.eqb_spec a b); try lia
           end; reflexivity. }
  assert (Hsign : strip_sign (c :: s) = (1, c :: s)).
  { unfold strip_sign.
    destruct (N.eqb_spec c 45); [lia|]. destruct (N.eqb_spec c 43); [lia|].
    reflexivity. }
  assert (Hradix : strip_radix_prefix (c :: s) = (10, c :: s)).
  { unfold strip_radix_prefix. destruct s as [|x t]; [reflexivity|].
    simpl in Hs; apply andb_true_iff in Hs as [Hx _].
    apply is_digit_range in Hx.
    destruct (N.eqb_spec x 120); [lia|]. destruct (N.eqb_spec x 88); [lia|].
    rewrite andb_false_r; reflexivity. }
  unfold parseInt. cbn [trimStart]. rewrite Hsp, Hsign, Hradix.
  cbn [parse_digits]. rewrite (digit_value_digit _ Hc).
  destruct (@parse_digits_digits s Hs (10 * 0 + (Z.of_N c - 48)))
    as (z & -> & Hz & Hiff); [lia|].
  exists z; split; [f_equal; lia|]. split; [lia|].
  cbn [forallb]. rewrite andb_true_iff, N.eqb_eq. split.
  - intros H; apply Hiff in H; destruct H; split; auto; lia.
  - intros [H1 H2]; apply Hiff; split; auto; lia.
Qed.

(** ** Unfolding the answer of [/api/execute-code] *)

Lemma execute_code_success code test_cases random :
  success (execute_code code test_cases random) = execute_success code.
Proof. reflexivity. Qed.

Lemma execute_code_test_results code test_cases random :
  test_results (execute_code code test_cases random) =
  map_indexed
    (fun testCase index =>
       {| test_case := index + 1;
          passed := execute_success code;
          tr_input := input testCase;
          tr_expected := expected testCase;
          actual := if execute_success code then expected testCase else JNull;
          tr_error :=
            if execute_success code then None
            else match execute_syntaxErrors code with
                 | e :: _ => Some e
                 | [] => Some (js "Function implementation incomplete")
                 end |})
    0 test_cases.
Proof. reflexivity. Qed.

Lemma execute_success_iff code :
  execute_success code = true <->
  includes code (js "def ") = true /\ includes code (js "return") = true
  /\ execute_syntaxErrors code = [] /\ fst (execute_content code) = true.
Proof.
  unfold execute_success, hasFunction, hasReturn.
  rewrite !andb_true_iff.
  destruct (execute_syntaxErrors code); intuition congruence.
Qed.

Lemma submit_allPassed_iff problemData code :
  submit_allPassed problemData code = true <->
  includes code (js "def ") = true /\ includes code (js "return") = true
  /\ submit_syntaxErrors code = []
  /\ fst (submit_content problemData code) = true.
Proof.
  unfold submit_allPassed, hasFunction, hasReturn.
  rewrite !andb_true_iff.
  destruct (submit_syntaxErrors code); intuition congruence.
Qed.

(** ** The claims *)



(** C8. Code that holds the marker [let ] gets a non-empty list of syntax
    violations headed by the message for that keyword, in both handlers,
    and the verdict is failure whatever else the code holds. *)
Theorem let_marker_is_flagged_first :
  forall code,
    includes code (js "let ") = true ->
    (exists others, execute_syntaxErrors code = message_let :: others)
    /\ (forall test_cases random,
           success (execute_code code test_cases random) = false)
    /\ (exists others, submit_syntaxErrors code = message_let :: others)
    /\ (forall db problem_id user_id random problemData rest,
           select_problem db problem_id = problemData :: rest ->
           exists body,
             snd (submit_solution
                    db {| problem_id := problem_id; code := code;
                          user_id := user_id |} random) = Json body
             /\ success body = false).
Proof.
  intros src Hlet.
  assert (He : exists others, execute_syntaxErrors src = message_let :: others).
  { unfold execute_syntaxErrors; rewrite Hlet; eexists; reflexivity. }
  assert (Hs : exists others, submit_syntaxErrors src = message_let :: others).
  { unfold submit_syntaxErrors; rewrite Hlet; eexists; reflexivity. }
  repeat split; auto.
  - intros test_cases random; rewrite execute_code_success.
    destruct (execute_success src) eqn:E; auto.
    apply execute_success_iff in E as (_ & _ & E & _).
    destruct He as [others He]; congruence.
  - intros db pid uid random problemData rest Hsel.
    destruct (submit_solution_found
                db {| problem_id := pid; code := src; user_id := uid |}
                random Hsel) as (body & Eb & Hb & _).
    exists body; rewrite Eb; split; [reflexivity|].
    rewrite Hb; cbn [code].
    destruct (submit_allPassed problemData src) eqn:E; auto.
    apply submit_allPassed_iff in E as (_ & _ & E & _).
    destruct Hs as [others Hs]; congruence.
Qed.


(** ** Which messages the handlers can surface *)





(** On a failing submission [errorMessage] is never [null]. *)
Lemma submit_errorMessage_on_failure problemData code :
  submit_allPassed problemData code = false ->
  exists e, submit_errorMessage problemData code = Some e.
Proof.
  intros Hf; unfold submit_errorMessage.
  destruct (submit_syntaxErrors code) as [|v vs] eqn:Hsyn; [|eauto].
  destruct (hasFunction code) eqn:Hd; simpl; [|eauto].
  destruct (hasReturn code) eqn:Hr; simpl; [|eauto].
  destruct (snd (submit_content problemData code)) as [|c cs] eqn:Hc; [|eauto].
  apply (submit_content_consistent problemData code) in Hc.
  unfold submit_allPassed in Hf; rewrite Hd, Hr, Hsyn, Hc in Hf; discriminate.
Qed.


(** C3 (as amended). The handler keeps no record of earlier submissions: it
    leaves the database as it found it, and the progress it returns speaks
    of this submission alone, [is_completed] being its verdict, [attempts]
    the constant 1 and [best_time] its execution time on success; the
    stored progress rows have no influence on the answer. *)
Theorem progress_reports_this_submission_only :
  forall db req random problemData rest,
    select_problem db (problem_id req) = problemData :: rest ->
    exists body,
      submit_solution db req random = (db, Json body)
      /\ progress body =
         Some {| is_completed := success body;
                 attempts := 1;
                 best_time := if success body
                              then Some (execution_time body) else None |}
      /\ forall rows,
          snd (submit_solution
                 {| problems := problems db; userProgress := rows |}
                 req random) = Json body.
Proof.
  intros db req random problemData rest Hsel.
  destruct (submit_solution_found db req random Hsel)
    as (body & Eb & _ & _ & _ & _ & Hp & _).
  exists body; repeat split; auto.
  intros rows.
  assert (Hsel' : select_problem
                    {| problems := problems db; userProgress := rows |}
                    (problem_id req) = problemData :: rest) by exact Hsel.
  unfold submit_solution in *; rewrite Hsel in Eb; rewrite Hsel'.
  injection Eb as <-; reflexivity.
Qed.



(** ** The age check *)

(** The age pattern is not anchored at a word boundary: the leftmost
    match may sit inside another word. *)
Example age_pattern_inside_a_word :
  String_match (js "page=1; age = 30x") re_age = Some [js "age=1"; js "1"].
Proof. vm_compute; reflexivity. Qed.


Lemma jsstring_eqb_refl s : jsstring_eqb s s = true.
Proof. unfold jsstring_eqb; destruct (list_eq_dec N.eq_dec s s); congruence. Qed.

Lemma jsstring_eqb_neq s t : s <> t -> jsstring_eqb s t = false.
Proof. unfold jsstring_eqb; destruct (list_eq_dec N.eq_dec s t); congruence. Qed.

(** The check lets the code through only when the text holds the word
    [age], an equals sign possibly surrounded by white space, and the
    numeral of a positive integer. *)
Lemma age_accepted code :
  missing_or_not_positive (String_match code re_age) = false ->
  exists pre ws1 ws2 digits rest,
    code = pre ++ js "age" ++ ws1 ++ [61%N] ++ ws2 ++ digits ++ rest
    /\ forallb is_space ws1 = true /\ forallb is_space ws2 = true
    /\ positive_integer_numeral digits = true.
Proof.
  unfold missing_or_not_positive.
  destruct (String_match code re_age) as [a|] eqn:E; [|discriminate].
  apply String_match_age in E
    as (pre & ws1 & ws2 & digits & rest & Hc & H1 & H2 & Hne & Hd & ->).
  destruct (parseInt_digits Hne Hd) as (z & -> & Hz & Hiff).
  cbn [le_zero]; intros Hle; apply Z.leb_gt in Hle.
  exists pre, ws1, ws2, digits, rest; repeat split; auto.
  unfold positive_integer_numeral.
  assert (jsstring_eqb digits [] = false) as ->
      by (apply jsstring_eqb_neq; exact Hne).
  rewrite Hd; cbn [negb andb].
  destruct (forallb (N.eqb 48) digits); auto.
  assert (z = 0) by (apply Hiff; reflexivity); lia.
Qed.

(** It pushes its message when the pattern matches nowhere, and when the
    digits of the leftmost match are all 0. *)
Lemma age_rejected code :
  String_match code re_age = None
  \/ (exists a, String_match code re_age = Some a
                /\ forallb (N.eqb 48) (group1 a) = true) ->
  missing_or_not_positive (String_match code re_age) = true.
Proof.
  intros [->|(a & E & Hzero)]; [reflexivity|].
  rewrite E; cbn [missing_or_not_positive].
  apply String_match_age in E
    as (pre & ws1 & ws2 & digits & rest & Hc & H1 & H2 & Hne & Hd & Hg).
  rewrite Hg in *.
  destruct (parseInt_digits Hne Hd) as (z & -> & Hz & Hiff).
  apply Hiff in Hzero; subst z; reflexivity.
Qed.

Lemma execute_content_age code :
  includes code (js "create_business_card") = true ->
  (fst (execute_content code) = true ->
   missing_or_not_positive (String_match code re_age) = false)
  /\ (missing_or_not_positive (String_match code re_age) = true ->
      fst (execute_content code) = false
      /\ In (js "Age must be a positive number") (snd (execute_content code))).
Proof.
  intros Hrule; unfold execute_content; rewrite Hrule.
  rewrite !check_fst.
  destruct (missing_or_not_positive (String_match code re_age)).
  - split; [rewrite !andb_false_r; discriminate|].
    intros _; split; [rewrite !andb_false_r; reflexivity|].
    do 2 apply check_keeps; apply check_pushes.
  - split; [reflexivity | discriminate].
Qed.

Lemma submit_content_age problemData code :
  title problemData = js "Personal Information Card" ->
  (fst (submit_content problemData code) = true ->
   missing_or_not_positive (String_match code re_age) = false)
  /\ (missing_or_not_positive (String_match code re_age) = true ->
      fst (submit_content problemData code) = false
      /\ In (js "Age variable must be assigned a positive number")
            (snd (submit_content problemData code))).
Proof.
  intros Hrule; unfold submit_content; rewrite Hrule, jsstring_eqb_refl.
  rewrite !check_fst.
  destruct (missing_or_not_positive (String_match code re_age)).
  - split; [rewrite !andb_false_r; discriminate|].
    intros _; split; [rewrite !andb_false_r; reflexivity|].
    do 2 apply check_keeps; apply check_pushes.
  - split; [reflexivity | discriminate].
Qed.

Lemma submit_scenario_failure problemData :
  title problemData = js "Personal Information Card" ->
  submit_allPassed problemData (business_card_code (js "-1")) = false
  /\ submit_errorMessage problemData (business_card_code (js "-1"))
     = Some (js "Age variable must be assigned a positive number").
Proof.
  intros Htitle; split.
  - unfold submit_allPassed, submit_content.
    rewrite Htitle; vm_compute; reflexivity.
  - unfold submit_errorMessage, submit_content.
    rewrite Htitle; vm_compute; reflexivity.
Qed.

(** C7 (as amended). For the business-card problem the submission that
    binds [age = -1] fails, its primary error says that the age must be a
    positive number, and every per-case result has [passed = false].  More
    generally the check rejects a submission in which the pattern "age,
    equals sign, digits" matches nowhere or whose leftmost match has only
    zeros for digits, and a submission it lets through holds, after the
    word age and the equals sign, the numeral of a positive integer (which
    may be the leading digits of a longer text). *)
Theorem age_check_of_the_business_card :
  (forall test_cases random,
      let r := execute_code (business_card_code (js "-1")) test_cases random in
      success r = false
      /\ execute_primaryError (business_card_code (js "-1"))
         = js "Age must be a positive number"
      /\ forall t, In t (test_results r) -> passed t = false)
  /\
  (forall db problem_id user_id random problemData rest,
      select_problem db problem_id = problemData :: rest ->
      title problemData = js "Personal Information Card" ->
      exists body,
        snd (submit_solution
               db {| problem_id := problem_id;
                     code := business_card_code (js "-1");
                     user_id := user_id |} random) = Json body
        /\ success body = false
        /\ error body = Some (js "Age variable must be assigned a positive number")
        /\ forall t, In t (test_results body) -> passed t = false)
  /\
  (forall code,
      includes code (js "create_business_card") = true ->
      (String_match code re_age = None
       \/ (exists a, String_match code re_age = Some a
                     /\ forallb (N.eqb 48) (group1 a) = true) ->
       In (js "Age must be a positive number") (snd (execute_content code))
       /\ forall test_cases random,
           success (execute_code code test_cases random) = false)
      /\ (fst (execute_content code) = true ->
          exists pre ws1 ws2 digits rest,
            code = pre ++ js "age" ++ ws1 ++ [61%N] ++ ws2 ++ digits ++ rest
            /\ forallb is_space ws1 = true /\ forallb is_space ws2 = true
            /\ positive_integer_numeral digits = true))
  /\
  (forall problemData code,
      title problemData = js "Personal Information Card" ->
      (String_match code re_age = None
       \/ (exists a, String_match code re_age = Some a
                     /\ forallb (N.eqb 48) (group1 a) = true) ->
       In (js "Age variable must be assigned a positive number")
          (snd (submit_content problemData code))
       /\ submit_allPassed problemData code = false)
      /\ (fst (submit_content problemData code) = true ->
          exists pre ws1 ws2 digits rest,
            code = pre ++ js "age" ++ ws1 ++ [61%N] ++ ws2 ++ digits ++ rest
            /\ forallb is_space ws1 = true /\ forallb is_space ws2 = true
            /\ positive_integer_numeral digits = true)).
Proof.
  split; [|split; [|split]].
  - intros test_cases random r; subst r.
    assert (Hf : execute_success (business_card_code (js "-1")) = false)
      by (vm_compute; reflexivity).
    rewrite execute_code_success, execute_code_test_results.
    split; [exact Hf|]. split; [vm_compute; reflexivity|].
    intros t Ht; apply in_map_indexed in Ht as (x & j & _ & ->).
    exact Hf.
  - intros db pid uid random problemData rest Hsel Htitle.
    destruct (submit_solution_found
                db {| problem_id := pid; code := business_card_code (js "-1");
                      user_id := uid |} random Hsel)
      as (body & Eb & Hs & _ & Ht & He & _).
    destruct (submit_scenario_failure problemData Htitle) as [Hf Hm].
    exists body; rewrite Eb; split; [reflexivity|].
    assert (Hs' : success body = false) by (rewrite Hs; exact Hf).
    split; [exact Hs'|]. split.
    + rewrite He, Hs'; exact Hm.
    + intros t Hin; rewrite Ht in Hin.
      apply in_map_indexed in Hin as (x & j & _ & ->); exact Hs'.
  - intros src Hrule.
    destruct (execute_content_age src Hrule) as [Hacc Hrej].
    split.
    + intros Hno; apply age_rejected in Hno.
      destruct (Hrej Hno) as [Hfst Hin]; split; [exact Hin|].
      intros test_cases random; rewrite execute_code_success.
      destruct (execute_success src) eqn:E; auto.
      apply execute_success_iff in E as (_ & _ & _ & E); congruence.
    + intros Hv; apply age_accepted, Hacc, Hv.
  - intros problemData src Hrule.
    destruct (submit_content_age problemData src Hrule) as [Hacc Hrej].
    split.
    + intros Hno; apply age_rejected in Hno.
      destruct (Hrej Hno) as [Hfst Hin]; split; [exact Hin|].
      destruct (submit_allPassed problemData src) eqn:E; auto.
      apply submit_allPassed_iff in E as (_ & _ & _ & E); congruence.
    + intros Hv; apply age_accepted, Hacc, Hv.
Qed.

(** ** The transcript of a success *)

Lemma includes_execute_success_output functionName resultDisplay :
  includes (execute_success_output functionName resultDisplay) resultDisplay
  = true.
Proof.
  unfold execute_success_output, template.
  apply includes_join
    with (x := js "│  " ++ resultDisplay ++ js "                                │").
  - do 4 right; left; reflexivity.
  - apply includes_app_r, includes_app_l, includes_refl.
Qed.

Lemma includes_submit_success_output functionName resultDisplay executionTime :
  includes (submit_success_output functionName resultDisplay executionTime)
           resultDisplay = true.
Proof.
  unfold submit_success_output, template.
  apply includes_join
    with (x := js "│  " ++ resultDisplay ++ js "                                │").
  - do 4 right; left; reflexivity.
  - apply includes_app_r, includes_app_l, includes_refl.
Qed.

Lemma business_card_display_scenario :
  business_card_display (business_card_code (js "30")) = business_card_tuple.
Proof.
  unfold business_card_display.
  set (n := String_match _ re_name); vm_compute in n; subst n.
  set (a := String_match _ re_age); vm_compute in a; subst a.
  set (c := String_match _ re_city); vm_compute in c; subst c.
  set (p := String_match _ re_profession); vm_compute in p; subst p.
  cbn [group1 nth].
  set (z := parseInt _); vm_compute in z; subst z; cbv beta iota.
  rewrite toString_safe_int by (split; [lia | reflexivity]).
  vm_compute; reflexivity.
Qed.

Lemma function_name_scenario :
  function_name (business_card_code (js "30")) = js "create_business_card".
Proof. vm_compute; reflexivity. Qed.

Lemma submit_scenario_success problemData :
  title problemData = js "Personal Information Card" ->
  submit_allPassed problemData (business_card_code (js "30")) = true.
Proof.
  intros Htitle; unfold submit_allPassed, submit_content.
  rewrite Htitle; vm_compute; reflexivity.
Qed.

(** C6. The business-card submission with the bindings [Ann], 30, [Linz]
    and [Engineer] succeeds in both handlers, and its transcript holds the
    tuple [('Ann', 30, 'Linz', 'Engineer')]. *)
Theorem business_card_scenario_succeeds :
  (forall test_cases random,
      let r := execute_code (business_card_code (js "30")) test_cases random in
      success r = true /\ includes (output r) business_card_tuple = true)
  /\
  (forall db problem_id user_id random problemData rest,
      select_problem db problem_id = problemData :: rest ->
      title problemData = js "Personal Information Card" ->
      exists body,
        snd (submit_solution
               db {| problem_id := problem_id;
                     code := business_card_code (js "30");
                     user_id := user_id |} random) = Json body
        /\ success body = true
        /\ includes (output body) business_card_tuple = true).
Proof.
  split.
  - intros test_cases random r; subst r.
    assert (Hs : execute_success (business_card_code (js "30")) = true)
      by (vm_compute; reflexivity).
    split; [exact Hs|].
    cbn [output execute_code]; rewrite Hs.
    unfold execute_resultDisplay.
    rewrite function_name_scenario, jsstring_eqb_refl.
    rewrite business_card_display_scenario.
    apply includes_execute_success_output.
  - intros db pid uid random problemData rest Hsel Htitle.
    destruct (submit_solution_found
                db {| problem_id := pid; code := business_card_code (js "30");
                      user_id := uid |} random Hsel)
      as (body & Eb & Hs & _ & _ & _ & _ & Ho).
    pose proof (submit_scenario_success problemData Htitle) as Hp.
    exists body; rewrite Eb; split; [reflexivity|].
    assert (Hs' : success body = true) by (rewrite Hs; exact Hp).
    split; [exact Hs'|].
    rewrite Ho, Hs'.
    change (code {| problem_id := pid; code := business_card_code (js "30");
                    user_id := uid |})
      with (business_card_code (js "30")).
    rewrite business_card_display_scenario.
    apply includes_submit_success_output.
Qed.

End Properties.

(** * The claims at the sample data

    From here on the numbers are those of [integer_runtime]. *)



Lemma let_marker_is_flagged_first_witness :
  includes let_code (js "let ") = true
  /\ hasFunction let_code = true
  /\ hasReturn let_code = true
  /\ (exists others, execute_syntaxErrors let_code = message_let :: others)
  /\ (forall test_cases random,
         success (execute_code let_code test_cases random) = false)
  /\ (exists others, submit_syntaxErrors let_code = message_let :: others)
  /\ (exists body,
         snd (submit_solution
                (sample_database [])
                {| problem_id := 1; code := let_code;
                   user_id := js "demo_user" |} sample_draw) = Json body
         /\ success body = false).
Proof.
  assert (Hlet : includes let_code (js "let ") = true)
    by (vm_compute; reflexivity).
  split; [exact Hlet|].
  split; [vm_compute; reflexivity|].
  split; [vm_compute; reflexivity|].
  destruct (let_marker_is_flagged_first let_code Hlet) as (A & B & C & D).
  split; [exact A|]. split; [exact B|]. split; [exact C|].
  exact (D (sample_database []) 1 (js "demo_user") sample_draw
           business_card_problem [] eq_refl).
Defined.



Lemma progress_reports_this_submission_only_witness :
  select_problem (sample_database [])
                 (problem_id (sample_request (business_card_code (js "30"))))
  = [business_card_problem]
  /\ exists body,
      submit_solution (sample_database [])
                      (sample_request (business_card_code (js "30")))
                      sample_draw = (sample_database [], Json body)
      /\ progress body =
         Some {| is_completed := success body;
                 attempts := 1;
                 best_time := if success body
                              then Some (execution_time body) else None |}
      /\ forall rows,
          snd (submit_solution
                 {| problems := problems (sample_database []);
                    userProgress := rows |}
                 (sample_request (business_card_code (js "30")))
                 sample_draw) = Json body.
Proof.
  split; [reflexivity|].
  exact (progress_reports_this_submission_only
           (sample_database [])
           (sample_request (business_card_code (js "30")))
           sample_draw (problemData := business_card_problem) (rest := [])
           eq_refl).
Defined.



Lemma business_card_scenario_succeeds_witness :
  select_problem (sample_database []) 1 = [business_card_problem]
  /\ title business_card_problem = js "Personal Information Card"
  /\ exists body,
      snd (submit_solution
             (sample_database [])
             {| problem_id := 1;
                code := business_card_code (js "30");
                user_id := js "demo_user" |} sample_draw) = Json body
      /\ success body = true
      /\ includes (output body) business_card_tuple = true.
Proof.
  assert (Htitle : title business_card_problem = js "Personal Information Card")
    by reflexivity.
  split; [reflexivity|]. split; [exact Htitle|].
  exact (proj2 business_card_scenario_succeeds
               (sample_database []) 1 (js "demo_user") sample_draw
               business_card_problem [] eq_refl Htitle).
Defined.

Lemma age_check_of_the_business_card_witness :
  select_problem (sample_database []) 1 = [business_card_problem]
  /\ title business_card_problem = js "Personal Information Card"
  /\ (exists body,
         snd (submit_solution
                (sample_database [])
                {| problem_id := 1;
                   code := business_card_code (js "-1");
                   user_id := js "demo_user" |} sample_draw) = Json body
         /\ success body = false
         /\ error body
            = Some (js "Age variable must be assigned a positive number")
         /\ forall t, In t (test_results body) -> passed t = false)
  /\ includes (business_card_code (js "0")) (js "create_business_card") = true
  /\ (exists a, String_match (business_card_code (js "0")) re_age = Some a
                /\ forallb (N.eqb 48) (group1 a) = true)
  /\ In (js "Age must be a positive number")
        (snd (execute_content (business_card_code (js "0"))))
  /\ (forall test_cases random,
         success (execute_code (business_card_code (js "0")) test_cases random)
         = false).
Proof.
  assert (Htitle : title business_card_problem = js "Personal Information Card")
    by reflexivity.
  split; [reflexivity|]. split; [exact Htitle|].
  split.
  { exact (proj1 (proj2 age_check_of_the_business_card)
                 (sample_database []) 1 (js "demo_user") sample_draw
                 business_card_problem [] eq_refl Htitle). }
  assert (Hrule : includes (business_card_code (js "0"))
                           (js "create_business_card") = true)
    by (vm_compute; reflexivity).
  assert (Hzero : exists a,
             String_match (business_card_code (js "0")) re_age = Some a
             /\ forallb (N.eqb 48) (group1 a) = true).
  { exists [js "age = 0"; js "0"]; split; vm_compute; reflexivity. }
  split; [exact Hrule|]. split; [exact Hzero|].
  exact (proj1 (proj1 (proj2 (proj2 age_check_of_the_business_card))
                      (business_card_code (js "0")) Hrule)
               (or_intror Hzero)).
Defined.

(** ** Where the claims as worded fail *)


(** C3 as worded: a success followed by a failure, on the database the
    first submission left behind, with a stored row that says completed
    after three attempts.  The second answer says not completed, one
    attempt. *)
Lemma sticky_completion_counterexample :
  exists first second,
    progress_of (submit_solution (sample_database [completed_row])
                                 (sample_request (business_card_code (js "30")))
                                 sample_draw) = Some first
    /\ progress_of
         (submit_solution
            (fst (submit_solution (sample_database [completed_row])
                                  (sample_request (business_card_code (js "30")))
                                  sample_draw))
            (sample_request (business_card_code (js "-1")))
            sample_draw) = Some second
    /\ is_completed first = true
    /\ is_completed second = false
    /\ attempts second = 1
    /\ ~ spec_sticky_progress first second false
    /\ ~ spec_sticky_progress
         {| is_completed := isCompleted completed_row;
            attempts := stored_attempts completed_row;
            best_time := bestTime completed_row |} second false.
Proof.
  exists {| is_completed := true; attempts := 1; best_time := Some 100 |},
         {| is_completed := false; attempts := 1; best_time := None |}.
  split; [vm_compute; reflexivity|].
  split; [vm_compute; reflexivity|].
  repeat split; try reflexivity.
  - intros [H _]; vm_compute in H; discriminate.
  - intros [H _]; vm_compute in H; discriminate.
Qed.


(** C7 as worded: [age = 3.5] binds no positive integer, and the
    submission passes in both handlers, the transcript showing the age 3. *)
Lemma age_binding_counterexample :
  positive_integer_numeral (js "3.5") = false
  /\ fst (execute_content (business_card_code (js "3.5"))) = true
  /\ success (execute_code (business_card_code (js "3.5")) [] sample_draw) = true
  /\ includes (output (execute_code (business_card_code (js "3.5")) []
                                    sample_draw))
              (js "('Ann', 3, 'Linz', 'Engineer')") = true
  /\ option_map success
       (answer_of (submit_solution (sample_database [])
                                   (sample_request (business_card_code (js "3.5")))
                                   sample_draw)) = Some true.
Proof. repeat split; vm_compute; reflexivity. Qed.

(** * Further properties of the two handlers *)

Section MoreOnHandlers.
Context {RT : NumberRuntime}.

(** ** The lookup of the problem *)

Lemma select_problem_nil db pid :
  select_problem db pid = [] <->
  forall p, In p (problems db) -> id p <> pid.
Proof.
  unfold select_problem.
  induction (problems db) as [|q l IH]; simpl.
  - split; [intros _ p []|reflexivity].
  - destruct (Z.eqb_spec (id q) pid) as [E|E]; simpl.
    + split; [discriminate|]. intros H; exfalso; apply (H q); auto.
    + rewrite IH; split.
      * intros H p [<-|Hp]; auto.
      * intros H p Hp; apply H; auto.
Qed.

Lemma select_problem_first db pid problemData rest :
  select_problem db pid = problemData :: rest ->
  rest = []
  /\ id problemData = pid
  /\ exists before after,
      problems db = before ++ problemData :: after
      /\ forall p, In p before -> id p <> pid.
Proof.
  unfold select_problem.
  induction (problems db) as [|q l IH]; simpl; [discriminate|].
  destruct (Z.eqb_spec (id q) pid) as [E|E]; simpl.
  - intros [= <- <-]. repeat split; auto.
    exists [], l; split; [reflexivity|]. intros p [].
  - intros H; destruct (IH H) as (Hr & Hid & before & after & -> & Hb).
    repeat split; auto.
    exists (q :: before), after; split; [reflexivity|].
    intros p [<-|Hp]; auto.
Qed.

(** X1. A submission is answered with 404 [Problem not found] exactly when
    no row of the problems table carries the requested id; otherwise the
    first row with that id is the one evaluated.  In both cases the
    database is handed back untouched. *)
Theorem submit_answers_404_iff_no_such_problem :
  forall db req random,
    fst (submit_solution db req random) = db
    /\ (snd (submit_solution db req random) = NotFound (js "Problem not found")
        <-> forall p, In p (problems db) -> id p <> problem_id req)
    /\ (forall body,
          snd (submit_solution db req random) = Json body ->
          exists problemData before after,
            problems db = before ++ problemData :: after
            /\ id problemData = problem_id req
            /\ (forall p, In p before -> id p <> problem_id req)
            /\ success body = submit_allPassed problemData (code req)).
Proof.
  intros db req random.
  destruct (select_problem db (problem_id req)) as [|problemData rest] eqn:E.
  - assert (Hs : submit_solution db req random
                 = (db, NotFound (js "Problem not found")))
      by (unfold submit_solution; rewrite E; reflexivity).
    rewrite Hs; cbn [fst snd]. split; [reflexivity|]. split.
    + split; [intros _; apply select_problem_nil, E | reflexivity].
    + discriminate.
  - destruct (submit_solution_found db req random E) as (body & Hs & Hv & _).
    rewrite Hs; cbn [fst snd]. split; [reflexivity|]. split.
    + split; [discriminate|].
      intros H; apply select_problem_nil in H; congruence.
    + intros b [= <-].
      destruct (select_problem_first _ _ E) as (_ & Hid & before & after & Hp & Hb).
      exists problemData, before, after; auto.
Qed.

(** ** The syntax checks *)


(** X2. The two handlers word their violations differently but agree on
    whether the syntax is valid: the list is empty exactly when the code
    holds none of the markers [let ], [const ] and [var ].  The dry run
    reports at most three violations, the submission at most two. *)
Theorem syntax_checks_agree :
  forall code,
    (execute_syntaxErrors code = [] <->
     includes code (js "let ") = false
     /\ includes code (js "const ") = false
     /\ includes code (js "var ") = false)
    /\ (submit_syntaxErrors code = [] <-> execute_syntaxErrors code = [])
    /\ (List.length (execute_syntaxErrors code) <= 3)%nat
    /\ (List.length (submit_syntaxErrors code) <= 2)%nat.
Proof.
  intros src; unfold execute_syntaxErrors, submit_syntaxErrors.
  destruct (includes src (js "let ")), (includes src (js "const ")),
    (includes src (js "var ")); cbn [orb app List.length];
    repeat split; try discriminate; try lia; try tauto;
    intros (? & ? & ?); discriminate.
Qed.

(** ** The content checks *)

Lemma check_snd failed msg st :
  snd (check failed msg st) = snd st ++ (if failed then [msg] else []).
Proof. destruct failed; simpl; auto using app_nil_r. Qed.

Lemma content_verdict_of_fields code :
  (includes code (js "create_business_card") = true ->
   fst (execute_content code)
   = negb (missing_or_blank (String_match code re_name)
           || missing_or_not_positive (String_match code re_age)
           || missing_or_blank (String_match code re_city)
           || missing_or_blank (String_match code re_profession)))
  /\ (forall problemData,
         title problemData = js "Personal Information Card" ->
         fst (submit_content problemData code)
         = negb (missing_or_blank (String_match code re_name)
                 || missing_or_not_positive (String_match code re_age)
                 || missing_or_blank (String_match code re_city)
                 || missing_or_blank (String_match code re_profession))).
Proof.
  split.
  - intros Hrule; unfold execute_content; rewrite Hrule.
    rewrite !check_fst; cbn [fst].
    destruct (missing_or_blank (String_match code re_name)),
      (missing_or_not_positive (String_match code re_age)),
      (missing_or_blank (String_match code re_city)),
      (missing_or_blank (String_match code re_profession)); reflexivity.
  - intros problemData Hrule; unfold submit_content.
    rewrite Hrule, jsstring_eqb_refl.
    rewrite !check_fst; cbn [fst].
    destruct (missing_or_blank (String_match code re_name)),
      (missing_or_not_positive (String_match code re_age)),
      (missing_or_blank (String_match code re_city)),
      (missing_or_blank (String_match code re_profession)); reflexivity.
Qed.

(** X3. When the business-card rule applies, the content errors are the
    messages of the failing fields in the fixed order name, age, city,
    profession, one message per failing field, and the validation passes
    exactly when none of the four fields fails; in the dry run the rule
    applies by the name in the code, in the submission by the title of the
    problem.  When the rule does not apply there is no error and the
    validation passes. *)
Theorem content_errors_in_field_order :
  forall code,
    let name_fails := missing_or_blank (String_match code re_name) in
    let age_fails := missing_or_not_positive (String_match code re_age) in
    let city_fails := missing_or_blank (String_match code re_city) in
    let profession_fails :=
      missing_or_blank (String_match code re_profession) in
    (includes code (js "create_business_card") = true ->
     snd (execute_content code) =
     (if name_fails then [js "Name must be a non-empty string"] else [])
     ++ (if age_fails then [js "Age must be a positive number"] else [])
     ++ (if city_fails then [js "City must be a non-empty string"] else [])
     ++ (if profession_fails
         then [js "Profession must be a non-empty string"] else [])
     /\ fst (execute_content code) =
        negb (name_fails || age_fails || city_fails || profession_fails))
    /\ (includes code (js "create_business_card") = false ->
        execute_content code = (true, []))
    /\ (forall problemData,
          title problemData = js "Personal Information Card" ->
          snd (submit_content problemData code) =
          (if name_fails
           then [js "Name variable must be assigned a non-empty string value"]
           else [])
          ++ (if age_fails
              then [js "Age variable must be assigned a positive number"]
              else [])
          ++ (if city_fails
              then [js "City variable must be assigned a non-empty string value"]
              else [])
          ++ (if profession_fails
              then [js "Profession variable must be assigned a non-empty string value"]
              else [])
          /\ fst (submit_content problemData code) =
             negb (name_fails || age_fails || city_fails || profession_fails))
    /\ (forall problemData,
          title problemData <> js "Personal Information Card" ->
          submit_content problemData code = (true, [])).
Proof.
  intros src; cbv zeta.
  split; [|split; [|split]].
  - intros Hrule; unfold execute_content; rewrite Hrule.
    rewrite !check_snd, !check_fst; cbn [snd fst app].
    split.
    + rewrite <- !app_assoc; reflexivity.
    + destruct (missing_or_blank (String_match src re_name)),
        (missing_or_not_positive (String_match src re_age)),
        (missing_or_blank (String_match src re_city)),
        (missing_or_blank (String_match src re_profession)); reflexivity.
  - intros Hrule; unfold execute_content; rewrite Hrule; reflexivity.
  - intros problemData Hrule; unfold submit_content.
    rewrite Hrule, jsstring_eqb_refl.
    rewrite !check_snd, !check_fst; cbn [snd fst app].
    split.
    + rewrite <- !app_assoc; reflexivity.
    + destruct (missing_or_blank (String_match src re_name)),
        (missing_or_not_positive (String_match src re_age)),
        (missing_or_blank (String_match src re_city)),
        (missing_or_blank (String_match src re_profession)); reflexivity.
  - intros problemData Hrule; unfold submit_content.
    rewrite (jsstring_eqb_neq Hrule); reflexivity.
Qed.




(** ** The per-case results, one by one *)

Lemma nth_error_map_indexed {A B : Type} (f : A -> Z -> B) :
  forall l i n,
    nth_error (map_indexed f i l) n
    = option_map (fun x => f x (i + Z.of_nat n)) (nth_error l n).
Proof.
  induction l as [|a l IH]; intros i n.
  - destruct n; reflexivity.
  - destruct n as [|n]; cbn [map_indexed nth_error option_map].
    + rewrite Z.add_0_r; reflexivity.
    + rewrite IH. destruct (nth_error l n); cbn [option_map]; [|reflexivity].
      do 2 f_equal; lia.
Qed.

Lemma length_map_indexed {A B : Type} (f : A -> Z -> B) :
  forall l i, List.length (map_indexed f i l) = List.length l.
Proof. induction l; intros i; simpl; auto. Qed.


(** X6. A non-null [error] never comes with a success.  In the
    submission the two go together exactly: [error] is [null] if and only
    if the verdict is success.  In the dry run a non-null [error] implies
    failure, but not the other way round. *)
Theorem error_goes_with_failure :
  (forall code test_cases random e,
      error (execute_code code test_cases random) = Some e ->
      success (execute_code code test_cases random) = false)
  /\
  (forall db req random body,
      snd (submit_solution db req random) = Json body ->
      (error body = None <-> success body = true)).
Proof.
  split.
  - intros src test_cases random e He.
    rewrite execute_code_success.
    destruct (execute_success src) eqn:E; [|reflexivity].
    apply execute_success_iff in E as (_ & _ & E & _).
    cbn [error execute_code] in He; rewrite E in He; discriminate.
  - intros db req random body Hb.
    destruct (select_problem db (problem_id req)) as [|problemData rest] eqn:E.
    { unfold submit_solution in Hb; rewrite E in Hb; discriminate. }
    destruct (submit_solution_found db req random E)
      as (b & Hs & Hv & _ & _ & He & _).
    rewrite Hs in Hb; injection Hb as ->.
    rewrite He, Hv.
    destruct (submit_allPassed problemData (code req)) eqn:Hp.
    + split; reflexivity.
    + destruct (submit_errorMessage_on_failure _ _ Hp) as [e ->].
      split; discriminate.
Qed.


(** ** What the transcript shows *)






(** ** The range of the execution time is tight *)



(** ** What the patterns capture *)

Lemma match_text cs pat s caps k res :
  match_pattern (map (fun c => Chr (N.eqb c)) cs ++ pat) s caps k = Some res ->
  exists s', s = cs ++ s' /\ match_pattern pat s' caps k = Some res.
Proof.
  revert s; induction cs as [|c cs IH]; intros s; cbn [map app].
  - intros H; exists s; auto.
  - cbn [match_pattern]; intros H.
    apply match_chr in H as (c' & t & -> & Hc & H).
    apply N.eqb_eq in Hc; subst c'.
    destruct (IH _ H) as (s' & -> & H'); exists s'; auto.
Qed.

Lemma String_match_somewhere code pat a :
  String_match code pat = Some a ->
  exists pre s, code = pre ++ s /\ match_here pat s = Some a.
Proof.
  induction code as [|c code IH]; cbn [String_match].
  - destruct (match_here pat []) eqn:E; [|discriminate].
    intros [= ->]; exists [], []; auto.
  - destruct (match_here pat (c :: code)) eqn:E.
    + intros [= ->]; exists [], (c :: code); auto.
    + intros H; destruct (IH H) as (pre & s & -> & Hs).
      exists (c :: pre), s; auto.
Qed.


Lemma match_quoted field s a :
  match_here
    (text field ++ [Star is_space; Chr (N.eqb 61); Star is_space;
                    Chr is_quote; Group [Plus not_quote]; Chr is_quote]) s
  = Some a ->
  exists ws1 ws2 q1 value q2 rest,
    s = js field ++ ws1 ++ [61%N] ++ ws2 ++ [q1] ++ value ++ [q2] ++ rest
    /\ forallb is_space ws1 = true /\ forallb is_space ws2 = true
    /\ is_quote q1 = true /\ is_quote q2 = true
    /\ value <> [] /\ forallb not_quote value = true
    /\ group1 a = value.
Proof.
  unfold match_here, text.
  destruct (match_pattern _ s [] _) as [[rest caps]|] eqn:E; [|discriminate].
  intros [= <-].
  apply match_text in E as (s0 & -> & E).
  cbn [match_pattern] in E.
  apply match_star in E as (ws1 & t1 & -> & Hws1 & E).
  apply match_chr in E as (c1 & t2 & -> & H1 & E).
  apply match_star in E as (ws2 & t3 & -> & Hws2 & E).
  apply match_chr in E as (q1 & t4 & -> & Hq1 & E).
  apply match_group_plus in E as (value & t5 & -> & Hne & Hv & E).
  apply match_chr in E as (q2 & t6 & -> & Hq2 & E).
  injection E as <- <-.
  apply N.eqb_eq in H1; subst c1.
  exists ws1, ws2, q1, value, q2, t6; repeat split; auto.
Qed.

Lemma trimStart_nil s : trimStart s = [] <-> forallb is_space s = true.
Proof.
  induction s as [|c s IH]; cbn [trimStart forallb]; [tauto|].
  destruct (is_space c); cbn [andb]; [exact IH|].
  split; discriminate.
Qed.

Lemma trimStart_head s c t : trimStart s = c :: t -> is_space c = false.
Proof.
  induction s as [|d s IH]; cbn [trimStart]; [discriminate|].
  destruct (is_space d) eqn:E; [exact IH|]. intros [= <- _]; exact E.
Qed.

Lemma forallb_rev {A} (f : A -> bool) l : forallb f (rev l) = forallb f l.
Proof.
  induction l as [|a l IH]; [reflexivity|].
  cbn [rev forallb]; rewrite forallb_app, IH; cbn [forallb].
  rewrite andb_true_r; apply andb_comm.
Qed.

(** [trim] leaves nothing exactly of a text made of white space. *)
Lemma trim_nil s : trim s = [] <-> forallb is_space s = true.
Proof.
  unfold trim, trimEnd; split.
  - intros H.
    assert (H' : trimStart (rev (trimStart s)) = []).
    { destruct (trimStart (rev (trimStart s))); [reflexivity|].
      apply (f_equal (@List.length _)) in H.
      rewrite length_rev in H; discriminate. }
    apply trimStart_nil in H'; rewrite forallb_rev in H'.
    destruct (trimStart s) as [|c t] eqn:E; [apply trimStart_nil, E|].
    apply trimStart_head in E; cbn [forallb] in H'; rewrite E in H'.
    discriminate.
  - intros H; apply trimStart_nil in H; rewrite H; reflexivity.
Qed.

Lemma not_blank_existsb s :
  jsstring_eqb (trim s) [] = false ->
  existsb (fun c => negb (is_space c)) s = true.
Proof.
  intros H.
  destruct (forallb is_space s) eqn:E.
  - apply trim_nil in E; rewrite E in H; discriminate.
  - clear H; induction s as [|c s IH]; [discriminate|].
    cbn [forallb existsb] in *.
    destruct (is_space c); cbn [negb andb orb] in *; auto.
Qed.

Lemma quoted_accepted code field :
  missing_or_blank
    (String_match
       code
       (text field ++ [Star is_space; Chr (N.eqb 61); Star is_space;
                       Chr is_quote; Group [Plus not_quote]; Chr is_quote]))
  = false ->
  holds_quoted_binding code field.
Proof.
  unfold missing_or_blank.
  destruct (String_match code _) as [a|] eqn:E; [|discriminate].
  intros Hb.
  apply String_match_somewhere in E as (pre & s & -> & E).
  apply match_quoted in E
    as (ws1 & ws2 & q1 & value & q2 & rest & -> & H1 & H2 & Hq1 & Hq2
        & Hne & Hv & Hg).
  rewrite Hg in Hb.
  exists pre, ws1, ws2, q1, value, q2, rest; repeat split; auto.
  apply not_blank_existsb, Hb.
Qed.

(** X9. A submission that passes the business-card check holds, for each
    of name, city and profession, the field name, an equals sign possibly
    surrounded by white space, and between two quote characters a text
    without quote characters that is not blank.  (The two quote characters
    need not be the same.)  This holds for the dry run and for the
    submission. *)
Theorem accepted_card_holds_quoted_fields :
  forall code,
    (includes code (js "create_business_card") = true ->
     fst (execute_content code) = true ->
     holds_quoted_binding code "name"
     /\ holds_quoted_binding code "city"
     /\ holds_quoted_binding code "profession")
    /\ (forall problemData,
          title problemData = js "Personal Information Card" ->
          fst (submit_content problemData code) = true ->
          holds_quoted_binding code "name"
          /\ holds_quoted_binding code "city"
          /\ holds_quoted_binding code "profession").
Proof.
  intros src.
  destruct (content_verdict_of_fields src) as (He & Hs).
  assert (Hall :
            negb (missing_or_blank (String_match src re_name)
                  || missing_or_not_positive (String_match src re_age)
                  || missing_or_blank (String_match src re_city)
                  || missing_or_blank (String_match src re_profession))
            = true ->
            holds_quoted_binding src "name"
            /\ holds_quoted_binding src "city"
            /\ holds_quoted_binding src "profession").
  { intros H; apply negb_true_iff in H.
    apply orb_false_iff in H as [H Hp].
    apply orb_false_iff in H as [H Hc].
    apply orb_false_iff in H as [Hn _].
    repeat split; apply quoted_accepted; assumption. }
  split.
  - intros Hrule Hv; apply Hall.
    rewrite <- (He Hrule); exact Hv.
  - intros problemData Hrule Hv; apply Hall.
    rewrite <- (Hs problemData Hrule); exact Hv.
Qed.

(** ** The name of the function *)



End MoreOnHandlers.

(** * The dashboard *)

Section DashboardProperties.
Context {RT : NumberRuntime}.

Lemma filter_length_all {A} (f : A -> bool) (l : list A) :
  (List.length (filter f l) <= List.length l)%nat
  /\ (List.length (filter f l) = List.length l <-> forallb f l = true).
Proof.
  induction l as [|a l [IH1 IH2]]; cbn [filter forallb List.length].
  - split; [lia|tauto].
  - destruct (f a); cbn [List.length andb].
    + split; [lia|]. rewrite <- IH2; split; lia.
    + split; [lia|]. split; [lia|discriminate].
Qed.

(** X11. In the dashboard every lesson lists exactly the problem rows that
    point to it, and every section the lesson rows that point to it, in the
    order of the tables.  A lesson never has more completed problems than
    problems, with equality exactly when every problem listed is
    completed; a section never has more completed lessons than lessons,
    with equality exactly when every lesson has at least one problem and
    all its problems completed, so that an empty lesson keeps a section
    from being complete. *)
Theorem dashboard_counts_are_consistent :
  forall sections lessons problems userProgress,
    let ss :=
      Dashboard.sectionsWithProgress sections lessons problems userProgress in
    map Dashboard.section ss = sections
    /\ forall s,
        In s ss ->
        map Dashboard.lesson (Dashboard.lessons s)
        = filter (fun l => LessonsTable.sectionId l
                           =? SectionsTable.id (Dashboard.section s)) lessons
        /\ 0 <= Dashboard.completed_lessons s <= Dashboard.total_lessons s
        /\ Dashboard.total_lessons s
           = Z.of_nat (List.length (Dashboard.lessons s))
        /\ (Dashboard.completed_lessons s = Dashboard.total_lessons s <->
            forall l, In l (Dashboard.lessons s) ->
                      Dashboard.problems l <> []
                      /\ forall p, In p (Dashboard.problems l) ->
                                   Dashboard.is_completed p = true)
        /\ forall l,
            In l (Dashboard.lessons s) ->
            map Dashboard.problem (Dashboard.problems l)
            = filter (fun p => ProblemsTable.lessonId p
                               =? LessonsTable.id (Dashboard.lesson l))
                     problems
            /\ 0 <= Dashboard.completed_problems l
               <= Dashboard.total_problems l
            /\ Dashboard.total_problems l
               = Z.of_nat (List.length (Dashboard.problems l))
            /\ (Dashboard.completed_problems l = Dashboard.total_problems l
                <-> forall p, In p (Dashboard.problems l) ->
                              Dashboard.is_completed p = true).
Proof.
  intros sections lessons problems userProgress ss; subst ss.
  unfold Dashboard.sectionsWithProgress.
  assert (Hlesson :
            forall l0,
              let l := Dashboard.lessonWithProgress problems userProgress l0 in
              map Dashboard.problem (Dashboard.problems l)
              = filter (fun p => ProblemsTable.lessonId p
                                 =? LessonsTable.id (Dashboard.lesson l))
                       problems
              /\ 0 <= Dashboard.completed_problems l
                 <= Dashboard.total_problems l
              /\ Dashboard.total_problems l
                 = Z.of_nat (List.length (Dashboard.problems l))
              /\ (Dashboard.completed_problems l = Dashboard.total_problems l
                  <-> forall p, In p (Dashboard.problems l) ->
                                Dashboard.is_completed p = true)).
  { intros l0 l; subst l; unfold Dashboard.lessonWithProgress.
    cbn [Dashboard.lesson Dashboard.problems Dashboard.completed_problems
         Dashboard.total_problems].
    set (ps := map (Dashboard.problemWithProgress userProgress) _).
    destruct (filter_length_all Dashboard.is_completed ps) as [Hle Heq].
    split; [|split; [lia|split; [reflexivity|]]].
    - subst ps; rewrite map_map; cbn [Dashboard.problem Dashboard.problemWithProgress].
      apply map_id.
    - rewrite <- forallb_forall, <- Heq; split; lia. }
  split.
  - rewrite map_map; cbn [Dashboard.section Dashboard.sectionWithProgress].
    apply map_id.
  - intros s Hs; apply in_map_iff in Hs as (s0 & <- & _).
    unfold Dashboard.sectionWithProgress.
    cbn [Dashboard.section Dashboard.lessons Dashboard.completed_lessons
         Dashboard.total_lessons].
    set (ls := map (Dashboard.lessonWithProgress problems userProgress) _).
    set (done := fun l => (Dashboard.completed_problems l
                           =? Dashboard.total_problems l)
                          && (0 <? Dashboard.total_problems l)).
    destruct (filter_length_all done ls) as [Hle Heq].
    assert (Hin : forall l, In l ls ->
                exists l0, l = Dashboard.lessonWithProgress problems userProgress l0).
    { intros l Hl; subst ls; apply in_map_iff in Hl as (l0 & <- & _); eauto. }
    split; [|split; [lia|split; [reflexivity|split]]].
    + subst ls; rewrite map_map; cbn [Dashboard.lesson Dashboard.lessonWithProgress].
      apply map_id.
    + split.
      * intros H l Hl.
        assert (Hd : done l = true).
        { assert (Hall : forallb done ls = true) by (apply Heq; lia).
          rewrite forallb_forall in Hall; apply Hall, Hl. }
        destruct (Hin l Hl) as [l0 ->].
        destruct (Hlesson l0) as (_ & _ & Ht & Hc); cbv zeta in Ht, Hc.
        unfold done in Hd; apply andb_true_iff in Hd as [H1 H2].
        apply Z.eqb_eq in H1; apply Z.ltb_lt in H2.
        split; [|apply Hc, H1].
        intros Hnil; rewrite Ht, Hnil in H2; cbn in H2; lia.
      * intros H.
        assert (Hall : forallb done ls = true).
        { apply forallb_forall; intros l Hl.
          destruct (H l Hl) as [Hne Hc'].
          destruct (Hin l Hl) as [l0 ->].
          destruct (Hlesson l0) as (_ & _ & Ht & Hc); cbv zeta in Ht, Hc.
          unfold done; apply andb_true_iff; split.
          - apply Z.eqb_eq, Hc, Hc'.
          - apply Z.ltb_lt; rewrite Ht.
            destruct (Dashboard.problems
                        (Dashboard.lessonWithProgress problems userProgress l0));
              [contradiction | cbn [List.length]; lia]. }
        apply Heq in Hall; lia.
    + intros l Hl; destruct (Hin l Hl) as [l0 ->]; apply Hlesson.
Qed.

(** X12. The current problem of the dashboard is the first problem that is
    not completed, in the reading order of the unlocked lessons of the
    unlocked sections.  So a current problem is never completed and never
    sits in a locked lesson or section, and there is none exactly when
    everything the user may work on is completed. *)
Theorem current_problem_is_first_open_problem :
  forall ss,
    Dashboard.currentProblem ss
    = find (fun p => negb (Dashboard.is_completed p)) (Dashboard.openProblems ss)
    /\ (forall p,
          Dashboard.currentProblem ss = Some p ->
          Dashboard.is_completed p = false
          /\ exists s l,
              In s ss /\ SectionsTable.isLocked (Dashboard.section s) = false
              /\ In l (Dashboard.lessons s)
              /\ LessonsTable.isLocked (Dashboard.lesson l) = false
              /\ In p (Dashboard.problems l))
    /\ (Dashboard.currentProblem ss = None <->
        forall p, In p (Dashboard.openProblems ss) ->
                  Dashboard.is_completed p = true).
Proof.
  intros ss.
  assert (Hp : forall ps,
             Dashboard.firstOpenProblem ps
             = find (fun p => negb (Dashboard.is_completed p)) ps).
  { induction ps as [|p ps IH]; [reflexivity|].
    cbn [Dashboard.firstOpenProblem find]; rewrite IH; reflexivity. }
  assert (Happ : forall (f : Dashboard.ProblemWithProgress -> bool) a b,
             find f (a ++ b)
             = match find f a with Some x => Some x | None => find f b end).
  { intros f a b; induction a as [|x a IH]; [reflexivity|].
    cbn [app find]; destruct (f x); auto. }
  assert (Hl : forall ls,
             Dashboard.searchLessons ls
             = find (fun p => negb (Dashboard.is_completed p))
                    (flat_map
                       (fun l => if LessonsTable.isLocked (Dashboard.lesson l)
                                 then [] else Dashboard.problems l) ls)).
  { induction ls as [|l ls IH]; [reflexivity|].
    cbn [Dashboard.searchLessons flat_map]; rewrite Happ, IH, Hp.
    destruct (LessonsTable.isLocked (Dashboard.lesson l)); reflexivity. }
  assert (Hs : Dashboard.currentProblem ss
               = find (fun p => negb (Dashboard.is_completed p))
                      (Dashboard.openProblems ss)).
  { unfold Dashboard.openProblems.
    induction ss as [|s ss IH]; [reflexivity|].
    cbn [Dashboard.currentProblem flat_map]; rewrite Happ, IH, Hl.
    destruct (SectionsTable.isLocked (Dashboard.section s)); reflexivity. }
  split; [exact Hs|]. rewrite Hs. split.
  - intros p Hf; apply find_some in Hf as [Hin Hc].
    split; [apply negb_true_iff, Hc|].
    unfold Dashboard.openProblems in Hin.
    apply in_flat_map in Hin as (s & Hs' & Hin).
    destruct (SectionsTable.isLocked (Dashboard.section s)) eqn:Els;
      [contradiction|].
    apply in_flat_map in Hin as (l & Hl' & Hin).
    destruct (LessonsTable.isLocked (Dashboard.lesson l)) eqn:Ell;
      [contradiction|].
    exists s, l; auto.
  - split.
    + intros Hn p Hin.
      pose proof (find_none _ _ Hn p Hin) as H.
      apply negb_false_iff, H.
    + intros H.
      destruct (find _ (Dashboard.openProblems ss)) as [p|] eqn:E;
        [|reflexivity].
      apply find_some in E as [Hin Hc].
      rewrite (H p Hin) in Hc; discriminate.
Qed.

(** X13. A problem of the dashboard takes its progress from the first
    stored row for its id: it is completed when that row says so, with the
    attempts of that row, and with its best time unless that is 0, which
    is shown as none.  Without a row it is not completed, with 0 attempts
    and no best time. *)
Theorem dashboard_progress_comes_from_first_row :
  forall userProgress problem,
    let p := Dashboard.problemWithProgress userProgress problem in
    Dashboard.problem p = problem
    /\ ((forall row, In row userProgress ->
                     problemId row <> ProblemsTable.id problem) ->
        Dashboard.is_completed p = false
        /\ Dashboard.attempts p = 0
        /\ Dashboard.best_time p = None)
    /\ (forall before row after,
          userProgress = before ++ row :: after ->
          problemId row = ProblemsTable.id problem ->
          (forall r, In r before -> problemId r <> ProblemsTable.id problem) ->
          Dashboard.is_completed p = isCompleted row
          /\ Dashboard.attempts p = stored_attempts row
          /\ Dashboard.best_time p
             = match bestTime row with
               | Some 0 => None
               | t => t
               end).
Proof.
  intros userProgress problem p; subst p.
  unfold Dashboard.problemWithProgress.
  cbn [Dashboard.problem Dashboard.is_completed Dashboard.attempts
       Dashboard.best_time].
  split; [reflexivity|]. split.
  - intros Hno.
    assert (E : find (fun p => problemId p =? ProblemsTable.id problem)
                     userProgress = None).
    { induction userProgress as [|r l IH]; [reflexivity|].
      cbn [find]. destruct (Z.eqb_spec (problemId r) (ProblemsTable.id problem)).
      - exfalso; apply (Hno r); [left; reflexivity | assumption].
      - apply IH; intros row Hr; apply Hno; right; exact Hr. }
    rewrite E; auto.
  - intros before row after -> Hrow Hbefore.
    assert (E : find (fun p => problemId p =? ProblemsTable.id problem)
                     (before ++ row :: after) = Some row).
    { induction before as [|r l IH]; cbn [app find].
      - rewrite Hrow, Z.eqb_refl; reflexivity.
      - destruct (Z.eqb_spec (problemId r) (ProblemsTable.id problem)).
        + exfalso; apply (Hbefore r); [left; reflexivity | assumption].
        + apply IH; intros r' Hr; apply Hbefore; right; exact Hr. }
    rewrite E. split; [apply orb_false_r|]. split.
    + destruct (Z.eqb_spec (stored_attempts row) 0); congruence.
    + destruct (bestTime row) as [t|]; [|reflexivity].
      destruct (Z.eqb_spec t 0) as [->|Ht]; [reflexivity|].
      destruct t; congruence.
Qed.


(** ** Counting the problems *)

Lemma list_sum_cons (a : nat) (l : list nat) :
  list_sum (a :: l) = (a + list_sum l)%nat.
Proof. reflexivity. Qed.

Lemma fold_left_sum {A} (f : A -> Z) (g : A -> nat) (l : list A) :
  (forall x, f x = Z.of_nat (g x)) ->
  forall a,
    fold_left (fun acc x => acc + f x) l a
    = a + Z.of_nat (list_sum (map g l)).
Proof.
  intros Hf; induction l as [|x l IH]; intros a; cbn [fold_left map].
  - cbn; lia.
  - rewrite IH, Hf, list_sum_cons, Nat2Z.inj_add; lia.
Qed.

Lemma weighted_matches {A B} (key : A -> Z) (ref : B -> Z) (w : B -> nat)
      (L : list A) (P : list B) :
  NoDup (map key L) ->
  (list_sum (map w (flat_map (fun l => filter (fun p => (ref p =? key l)%Z) P) L))
   <= list_sum (map w P))%nat.
Proof.
  intros Hnd; induction P as [|p P IH].
  - assert (E : flat_map (fun l : A => filter (fun p => (ref p =? key l)%Z) []) L
                = []) by (clear Hnd; induction L; simpl; auto).
    rewrite E; cbn; lia.
  - assert (Hstep :
              (list_sum
                 (map w (flat_map
                           (fun l => filter (fun q => (ref q =? key l)%Z) (p :: P)) L))
               = w p * List.length (filter (fun l => (ref p =? key l)%Z) L)
                 + list_sum
                     (map w (flat_map
                               (fun l => filter (fun q => (ref q =? key l)%Z) P) L)))%nat).
    { clear IH Hnd; induction L as [|l L IHL]; [cbn; lia|].
      cbn [flat_map]; rewrite !map_app, !list_sum_app, IHL.
      cbn [filter].
      destruct ((ref p =? key l)%Z);
        cbn [map List.length]; rewrite ?list_sum_cons; nia. }
    assert (Hone : (List.length (filter (fun l => (ref p =? key l)%Z) L) <= 1)%nat).
    { clear IH Hstep; induction L as [|l L IHL]; [cbn; lia|].
      cbn [map] in Hnd; inversion Hnd as [|? ? Hnot Hnd']; subst.
      cbn [filter]; destruct (Z.eqb_spec (ref p) (key l)) as [E|E];
        [|apply IHL, Hnd'].
      cbn [List.length].
      assert (Hz : filter (fun l0 => (ref p =? key l0)%Z) L = []).
      { clear IHL Hnd Hnd'; induction L as [|x L IHx]; [reflexivity|].
        cbn [filter]; destruct (Z.eqb_spec (ref p) (key x)) as [Ex|Ex].
        - exfalso; apply Hnot; left; congruence.
        - apply IHx; intros Hin; apply Hnot; right; exact Hin. }
      rewrite Hz; cbn; lia. }
    rewrite Hstep; cbn [map]; rewrite list_sum_cons. nia.
Qed.

Lemma list_sum_ones {A} (l : list A) :
  list_sum (map (fun _ => 1%nat) l) = List.length l.
Proof. induction l; cbn; auto. Qed.

Lemma list_sum_flat_map {A B} (f : A -> list B) (w : B -> nat) (l : list A) :
  list_sum (map w (flat_map f l))
  = list_sum (map (fun x => list_sum (map w (f x))) l).
Proof.
  induction l as [|x l IH]; [reflexivity|].
  cbn [flat_map map list_sum]; rewrite map_app, list_sum_app, IH; reflexivity.
Qed.

Lemma totalProblems_sum ss :
  Dashboard.totalProblems ss
  = Z.of_nat
      (list_sum
         (map (fun s =>
                 list_sum (map (fun l => List.length (Dashboard.problems l))
                               (Dashboard.lessons s))) ss)).
Proof.
  unfold Dashboard.totalProblems.
  rewrite (fold_left_sum
             (fun s =>
                fold_left
                  (fun lessonAcc l =>
                     lessonAcc + Z.of_nat (List.length (Dashboard.problems l)))
                  (Dashboard.lessons s) 0)
             (fun s =>
                list_sum (map (fun l => List.length (Dashboard.problems l))
                              (Dashboard.lessons s)))); [lia|].
  intros s.
  rewrite (fold_left_sum
             (fun l => Z.of_nat (List.length (Dashboard.problems l)))
             (fun l => List.length (Dashboard.problems l)));
    [lia | reflexivity].
Qed.

Lemma openProblems_length ss :
  (List.length (Dashboard.openProblems ss)
   <= list_sum
        (map (fun s =>
                list_sum (map (fun l => List.length (Dashboard.problems l))
                              (Dashboard.lessons s))) ss))%nat.
Proof.
  unfold Dashboard.openProblems.
  induction ss as [|s ss IH]; [cbn; lia|].
  cbn [flat_map map]; rewrite length_app.
  assert (Hs : (List.length
                  (if SectionsTable.isLocked (Dashboard.section s) then []
                   else flat_map
                          (fun l =>
                             if LessonsTable.isLocked (Dashboard.lesson l)
                             then [] else Dashboard.problems l)
                          (Dashboard.lessons s))
                <= list_sum (map (fun l => List.length (Dashboard.problems l))
                                 (Dashboard.lessons s)))%nat).
  { destruct (SectionsTable.isLocked (Dashboard.section s)); [cbn; lia|].
    induction (Dashboard.lessons s) as [|l ls IHl]; [cbn; lia|].
    cbn [flat_map map]; rewrite length_app, list_sum_cons.
    destruct (LessonsTable.isLocked (Dashboard.lesson l));
      cbn [List.length]; lia. }
  rewrite list_sum_cons; lia.
Qed.

(** X14. The total the dashboard divides by counts every listed problem,
    locked or not, so it is at least the number of problems the user may
    work on.  When the ids of the sections and of the lessons are distinct,
    as primary keys are, no problem row is counted twice: the total is at
    most the number of rows of the problems table, rows whose lesson or
    section is missing being left out. *)
Theorem total_problems_counts_no_row_twice :
  forall sections lessons problems userProgress,
    NoDup (map SectionsTable.id sections) ->
    NoDup (map LessonsTable.id lessons) ->
    let ss :=
      Dashboard.sectionsWithProgress sections lessons problems userProgress in
    Z.of_nat (List.length (Dashboard.openProblems ss))
    <= Dashboard.totalProblems ss
    <= Z.of_nat (List.length problems).
Proof.
  intros sections lessons problems userProgress Hs Hl ss; subst ss.
  rewrite totalProblems_sum.
  split; [apply Nat2Z.inj_le, openProblems_length|].
  apply Nat2Z.inj_le.
  set (c := fun l0 : LessonsTable.row =>
              List.length
                (filter (fun p => ProblemsTable.lessonId p
                                  =? LessonsTable.id l0) problems)).
  assert (E : map (fun s =>
                     list_sum (map (fun l => List.length (Dashboard.problems l))
                                   (Dashboard.lessons s)))
                  (Dashboard.sectionsWithProgress
                     sections lessons problems userProgress)
              = map (fun s0 =>
                       list_sum
                         (map c (filter (fun l => LessonsTable.sectionId l
                                                  =? SectionsTable.id s0)
                                        lessons))) sections).
  { unfold Dashboard.sectionsWithProgress; rewrite map_map.
    apply map_ext; intros s0.
    cbn [Dashboard.lessons Dashboard.sectionWithProgress].
    rewrite map_map; f_equal; apply map_ext; intros l0.
    cbn [Dashboard.problems Dashboard.lessonWithProgress].
    rewrite length_map; reflexivity. }
  rewrite E, <- (list_sum_flat_map
                   (fun s0 => filter (fun l => LessonsTable.sectionId l
                                               =? SectionsTable.id s0) lessons)
                   c sections).
  etransitivity;
    [apply (weighted_matches SectionsTable.id LessonsTable.sectionId c
                             sections lessons Hs)|].
  unfold c.
  rewrite <- (list_sum_ones problems).
  etransitivity;
    [|apply (weighted_matches LessonsTable.id ProblemsTable.lessonId
                              (fun _ => 1%nat) lessons problems Hl)].
  rewrite list_sum_flat_map.
  apply Nat.eq_le_incl; f_equal; apply map_ext; intros l0.
  symmetry; apply list_sum_ones.
Qed.

End DashboardProperties.

(** * The details of a problem *)

Section ProblemDetailsProperties.
Context {RT : NumberRuntime}.

Lemma first_row_none {A} (f : A -> bool) (l : list A) :
  firstn 1 (filter f l) = [] <-> forall x, In x l -> f x = false.
Proof.
  induction l as [|a l IH]; cbn [filter].
  - split; [intros _ x []|reflexivity].
  - destruct (f a) eqn:E; cbn [firstn].
    + split; [discriminate|]. intros H; rewrite (H a) in E; [discriminate|].
      left; reflexivity.
    + rewrite IH; split.
      * intros H x [<-|Hx]; auto.
      * intros H x Hx; apply H; right; exact Hx.
Qed.

Lemma first_row_some {A} (f : A -> bool) (l : list A) x rest :
  firstn 1 (filter f l) = x :: rest -> In x l /\ f x = true.
Proof.
  induction l as [|a l IH]; cbn [filter]; [discriminate|].
  destruct (f a) eqn:E; cbn [firstn].
  - intros [= <- _]; split; [left; reflexivity | exact E].
  - intros H; destruct (IH H); split; [right|]; assumption.
Qed.

(** X15. [GET /api/problems/:problemId] answers 404 exactly when no
    problem row has the id.  When the problem exists but no lesson row has
    its [lessonId], or no section row has the [sectionId] of that lesson,
    the answer is the 500 [Failed to fetch problem].  A 200 answer carries
    the requested id, the titles of a lesson and a section that the
    problem really points to, and always the same blank progress: not
    completed, 0 attempts, no best time, 0 hints. *)
Theorem problem_details_answers :
  forall db problemId,
    (ProblemDetails.problem_details db problemId
     = ProblemDetails.NotFound (js "Problem not found")
     <-> forall p, In p (ProblemDetails.problems db) ->
                   ProblemsTable.id p <> problemId)
    /\ (forall message,
          ProblemDetails.problem_details db problemId
          = ProblemDetails.ServerError message ->
          message = js "Failed to fetch problem"
          /\ exists p,
              In p (ProblemDetails.problems db)
              /\ ProblemsTable.id p = problemId
              /\ ((forall l, In l (ProblemDetails.lessons db) ->
                             LessonsTable.id l <> ProblemsTable.lessonId p)
                  \/ exists l,
                      In l (ProblemDetails.lessons db)
                      /\ LessonsTable.id l = ProblemsTable.lessonId p
                      /\ forall s, In s (ProblemDetails.sections db) ->
                                   SectionsTable.id s
                                   <> LessonsTable.sectionId l))
    /\ (forall body,
          ProblemDetails.problem_details db problemId = ProblemDetails.Ok body ->
          ProblemDetails.id body = problemId
          /\ ProblemDetails.progress body
             = {| ProblemDetails.is_completed := false;
                  ProblemDetails.attempts := 0;
                  ProblemDetails.best_time := None;
                  ProblemDetails.hints_used := 0 |}
          /\ exists p l s,
              In p (ProblemDetails.problems db)
              /\ In l (ProblemDetails.lessons db)
              /\ In s (ProblemDetails.sections db)
              /\ ProblemsTable.id p = problemId
              /\ LessonsTable.id l = ProblemsTable.lessonId p
              /\ SectionsTable.id s = LessonsTable.sectionId l
              /\ ProblemDetails.title body = ProblemsTable.title p
              /\ ProblemDetails.test_cases body = ProblemsTable.testCases p
              /\ ProblemDetails.breadcrumb body
                 = {| ProblemDetails.section := SectionsTable.title s;
                      ProblemDetails.lesson := LessonsTable.title l |}).
Proof.
  intros db problemId; unfold ProblemDetails.problem_details.
  destruct (firstn 1 (filter (fun p => ProblemsTable.id p =? problemId)
                             (ProblemDetails.problems db)))
    as [|p prest] eqn:Ep.
  { split; [|split; discriminate].
    split; [intros _|reflexivity].
    intros q Hq; apply (proj1 (first_row_none _ _) Ep) in Hq.
    apply Z.eqb_neq, Hq. }
  destruct (first_row_some _ _ Ep) as [Hp Hpid]; apply Z.eqb_eq in Hpid.
  assert (Hnot404 : ~ forall q, In q (ProblemDetails.problems db) ->
                                ProblemsTable.id q <> problemId)
    by (intros H; exact (H p Hp Hpid)).
  destruct (firstn 1 (filter (fun l => LessonsTable.id l
                                       =? ProblemsTable.lessonId p)
                             (ProblemDetails.lessons db)))
    as [|l lrest] eqn:El.
  { split; [split; [discriminate | intros H; destruct (Hnot404 H)]|].
    split; [|discriminate].
    intros message [= <-]; split; [reflexivity|].
    exists p; repeat split; auto. left.
    intros l Hl; apply (proj1 (first_row_none _ _) El) in Hl.
    apply Z.eqb_neq, Hl. }
  destruct (first_row_some _ _ El) as [Hl Hlid]; apply Z.eqb_eq in Hlid.
  destruct (firstn 1 (filter (fun s => SectionsTable.id s
                                       =? LessonsTable.sectionId l)
                             (ProblemDetails.sections db)))
    as [|s srest] eqn:Es.
  { split; [split; [discriminate | intros H; destruct (Hnot404 H)]|].
    split; [|discriminate].
    intros message [= <-]; split; [reflexivity|].
    exists p; repeat split; auto. right.
    exists l; repeat split; auto.
    intros s Hs; apply (proj1 (first_row_none _ _) Es) in Hs.
    apply Z.eqb_neq, Hs. }
  destruct (first_row_some _ _ Es) as [Hs Hsid]; apply Z.eqb_eq in Hsid.
  split; [split; [discriminate | intros H; destruct (Hnot404 H)]|].
  split; [discriminate|].
  intros body [= <-].
  cbn [ProblemDetails.id ProblemDetails.progress ProblemDetails.title
       ProblemDetails.test_cases ProblemDetails.breadcrumb].
  split; [exact Hpid|]. split; [reflexivity|].
  exists p, l, s; repeat split; auto.
Qed.

End ProblemDetailsProperties.

(** * The problem page *)

Section ProblemPageProperties.
Context {RT : NumberRuntime}.

(** ** Decimal numerals and [parseInt] *)

Lemma of_uint_acc_value d acc :
  Z.pos (Pos.of_uint_acc d acc) = uint_value d (Z.pos acc).
Proof.
  revert acc; induction d; intros acc; cbn [Pos.of_uint_acc uint_value];
    [reflexivity | rewrite IHd; f_equal; lia ..].
Qed.

Lemma of_uint_value d : Z.of_N (Pos.of_uint d) = uint_value d 0.
Proof.
  induction d; cbn [Pos.of_uint uint_value];
    [reflexivity | exact IHd
     | cbn [Z.of_N]; rewrite of_uint_acc_value; reflexivity ..].
Qed.

Lemma js_ascii (c : ascii) (s : string) :
  (N_of_ascii c <? 128)%N = true ->
  js (String c s) = N_of_ascii c :: js s.
Proof.
  intros H; unfold js; cbn [bytes utf16_of_bytes]; rewrite H; reflexivity.
Qed.

Lemma parse_digits_numeral d rest acc :
  d <> Decimal.Nil ->
  parse_digits 10 (js (NilEmpty.string_of_uint d) ++ rest) acc
  = parse_digits 10 rest
      (Some (uint_value d (match acc with Some a => a | None => 0 end))).
Proof.
  revert acc; induction d; intros acc Hne; [congruence | ..];
    cbn [NilEmpty.string_of_uint uint_value];
    (rewrite js_ascii by reflexivity);
    cbn [app parse_digits];
    (match goal with
     | |- context [digit_value 10 ?c] =>
       let v := eval vm_compute in (digit_value 10 c) in
       change (digit_value 10 c) with v
     end);
    cbv iota beta;
    (destruct d;
     [ cbn [NilEmpty.string_of_uint uint_value];
       change (js EmptyString) with (@nil char16); cbn [app]; reflexivity
     | rewrite IHd by discriminate; reflexivity ..]).
Qed.

Lemma numeral_digits d :
  forallb is_digit (js (NilEmpty.string_of_uint d)) = true.
Proof.
  induction d; cbn [NilEmpty.string_of_uint];
    [reflexivity | rewrite js_ascii by reflexivity; cbn [forallb];
                   rewrite IHd; reflexivity ..].
Qed.

Lemma decimal_pos p :
  decimal (Z.pos p) = js (NilEmpty.string_of_uint (Pos.to_uint p)).
Proof.
  unfold decimal; cbn [Z.to_int NilZero.string_of_int].
  unfold NilZero.string_of_uint.
  pose proof (DecimalPos.Unsigned.to_uint_nonnil p) as H.
  destruct (Pos.to_uint p); [congruence | reflexivity ..].
Qed.

(** [parseInt] of text that starts with digits and goes on with a colon, or
    ends there, is [parse_digits] of it. *)
Lemma parseInt_digits_first c t :
  is_digit c = true ->
  match t with
  | [] => True
  | x :: _ => x <> 120%N /\ x <> 88%N
  end ->
  parseInt (c :: t) = match parse_digits 10 (c :: t) None with
                      | Some z => Some (1 * z)
                      | None => None
                      end.
Proof.
  intros Hc Ht.
  pose proof (is_digit_range _ Hc) as Hr.
  assert (Hsp : is_space c = false).
  { unfold is_space.
    repeat match goal with
           | |- context [(?a <=? ?b)%N] => destruct (N.leb_spec a b); try lia
           | |- context [(?a =? ?b)%N] => destruct (N.eqb_spec a b); try lia
           end; reflexivity. }
  assert (Hsign : strip_sign (c :: t) = (1, c :: t)).
  { unfold strip_sign.
    destruct (N.eqb_spec c 45); [lia|]. destruct (N.eqb_spec c 43); [lia|].
    reflexivity. }
  assert (Hradix : strip_radix_prefix (c :: t) = (10, c :: t)).
  { unfold strip_radix_prefix. destruct t as [|x t]; [reflexivity|].
    destruct Ht as [H1 H2].
    destruct (N.eqb_spec x 120); [congruence|].
    destruct (N.eqb_spec x 88); [congruence|].
    rewrite andb_false_r; reflexivity. }
  unfold parseInt. cbn [trimStart]. rewrite Hsp, Hsign, Hradix. reflexivity.
Qed.

Lemma parseInt_numeral d rest :
  d <> Decimal.Nil ->
  rest = [] \/ (exists t, rest = 58%N :: t) ->
  parseInt (js (NilEmpty.string_of_uint d) ++ rest) = Some (uint_value d 0).
Proof.
  intros Hne Hrest.
  assert (Hstop : parse_digits 10 rest (Some (uint_value d 0))
                  = Some (uint_value d 0)).
  { destruct Hrest as [->|[t ->]]; reflexivity. }
  pose proof (parse_digits_numeral rest None Hne) as Hp.
  cbv iota in Hp; rewrite Hstop in Hp.
  pose proof (numeral_digits d) as Hd.
  destruct (js (NilEmpty.string_of_uint d)) as [|c t] eqn:E.
  { destruct d; try congruence;
      cbn [NilEmpty.string_of_uint] in E;
      rewrite js_ascii in E by reflexivity; discriminate. }
  cbn [forallb] in Hd; apply andb_true_iff in Hd as [Hc Ht].
  change ((c :: t) ++ rest) with (c :: t ++ rest) in *.
  rewrite parseInt_digits_first, Hp; [f_equal; lia | exact Hc |].
  destruct t as [|x t'].
  - destruct Hrest as [->|[t' ->]]; cbn [app]; [exact I|].
    split; discriminate.
  - cbn [app forallb] in *. apply andb_true_iff in Ht as [Hx _].
    apply is_digit_range in Hx; split; lia.
Qed.

(** [parseInt] reads back the decimal numeral of a natural number, also
    when a colon follows. *)
Lemma parseInt_decimal z rest :
  0 <= z ->
  rest = [] \/ (exists t, rest = 58%N :: t) ->
  parseInt (decimal z ++ rest) = Some z.
Proof.
  intros Hz Hrest; destruct z as [|p|p]; [|clear Hz|lia].
  - change (decimal 0) with (js (NilEmpty.string_of_uint (Decimal.D0 Decimal.Nil))).
    rewrite parseInt_numeral; [reflexivity | discriminate | exact Hrest].
  - rewrite decimal_pos, parseInt_numeral;
      [| apply DecimalPos.Unsigned.to_uint_nonnil | exact Hrest].
    rewrite <- of_uint_value, DecimalPos.Unsigned.of_to; reflexivity.
Qed.

(** ** The clock *)

Lemma two_digits_table :
  forallb
    (fun k =>
       let r := Z.of_nat k in
       let shown := [Z.to_N (48 + r / 10); Z.to_N (48 + r mod 10)] in
       jsstring_eqb (padStart (decimal r) 2 (js "0")) shown
       && match parseInt shown with
          | Some v => v =? r
          | None => false
          end)
    (seq 0 60) = true.
Proof. vm_compute; reflexivity. Qed.

Lemma two_digits r :
  0 <= r < 60 ->
  padStart (decimal r) 2 (js "0")
  = [Z.to_N (48 + r / 10); Z.to_N (48 + r mod 10)]
  /\ parseInt [Z.to_N (48 + r / 10); Z.to_N (48 + r mod 10)] = Some r.
Proof.
  intros Hr.
  pose proof two_digits_table as H; rewrite forallb_forall in H.
  specialize (H (Z.to_nat r)); rewrite Z2Nat.id in H by lia.
  assert (Hin : In (Z.to_nat r) (seq 0 60)) by (apply in_seq; lia).
  apply H in Hin; cbv zeta in Hin.
  apply andb_true_iff in Hin as [H1 H2]; split.
  - unfold jsstring_eqb in H1.
    destruct (list_eq_dec N.eq_dec _ _) as [E|]; [exact E | discriminate].
  - destruct (parseInt _) as [v|]; [|discriminate].
    apply Z.eqb_eq in H2; congruence.
Qed.

(** X16. For a whole number of seconds the clock shows the minutes in
    decimal, a colon and the seconds of the minute on exactly two digits.
    Reading the two numbers back with [parseInt] gives the minutes and the
    seconds again, so two different times are never shown alike. *)
Theorem clock_shows_minutes_and_two_digit_seconds :
  forall seconds,
    0 <= seconds < 2 ^ 53 ->
    let shown := ProblemPage.formatTime seconds in
    let tens := Z.to_N (48 + (seconds mod 60) / 10) in
    let ones := Z.to_N (48 + (seconds mod 60) mod 10) in
    shown = decimal (seconds / 60) ++ [58%N; tens; ones]
    /\ parseInt shown = Some (seconds / 60)
    /\ parseInt (skipn (List.length shown - 2) shown) = Some (seconds mod 60)
    /\ forall other,
        0 <= other < 2 ^ 53 ->
        ProblemPage.formatTime other = shown -> other = seconds.
Proof.
  assert (Hshape : forall s,
             0 <= s < 2 ^ 53 ->
             ProblemPage.formatTime s
             = decimal (s / 60)
                       ++ [58%N; Z.to_N (48 + (s mod 60) / 10);
                           Z.to_N (48 + (s mod 60) mod 10)]).
  { intros s Hs; unfold ProblemPage.formatTime; cbv zeta.
    assert (Hm : 0 <= s / 60 < 2 ^ 53).
    { split; [apply Z.div_pos; lia|].
      apply Z.div_lt_upper_bound; lia. }
    assert (Hrem : Z.rem s 60 = s mod 60) by (apply Z.rem_mod_nonneg; lia).
    assert (Hr : 0 <= s mod 60 < 60) by (apply Z.mod_pos_bound; lia).
    rewrite Hrem, !toString_safe_int by lia.
    rewrite (proj1 (two_digits Hr)).
    change (js ":") with [58%N]; reflexivity. }
  assert (Hread : forall s,
             0 <= s < 2 ^ 53 ->
             parseInt (ProblemPage.formatTime s) = Some (s / 60)
             /\ parseInt (skipn (List.length (ProblemPage.formatTime s) - 2)
                                (ProblemPage.formatTime s))
                = Some (s mod 60)).
  { intros s Hs; rewrite (Hshape s Hs).
    assert (Hr : 0 <= s mod 60 < 60) by (apply Z.mod_pos_bound; lia).
    split.
    - apply parseInt_decimal; [apply Z.div_pos; lia | right; eauto].
    - rewrite length_app; cbn [List.length].
      replace (List.length (decimal (s / 60)) + 3 - 2)%nat
        with (List.length (decimal (s / 60)) + 1)%nat by lia.
      rewrite skipn_app, skipn_all2 by lia.
      replace (List.length (decimal (s / 60)) + 1
               - List.length (decimal (s / 60)))%nat with 1%nat by lia.
      cbn [app skipn]. apply (two_digits Hr). }
  intros seconds Hs shown tens ones; subst shown tens ones.
  split; [apply Hshape, Hs|].
  destruct (Hread seconds Hs) as [Hm Hr].
  split; [exact Hm|]. split; [exact Hr|].
  intros other Ho E.
  destruct (Hread other Ho) as [Hm' Hr'].
  rewrite E in Hm', Hr'.
  assert (E1 : other / 60 = seconds / 60) by congruence.
  assert (E2 : other mod 60 = seconds mod 60) by congruence.
  rewrite (Z.div_mod other 60), (Z.div_mod seconds 60) by lia.
  congruence.
Qed.

(** ** The hints *)

Lemma clicks_from hints n st :
  0 <= ProblemPage.hintsRevealed st <= Z.of_nat (List.length hints) ->
  let st' := ProblemPage.clicks hints n st in
  ProblemPage.hintsRevealed st'
  = Z.min (ProblemPage.hintsRevealed st + Z.of_nat n)
          (Z.of_nat (List.length hints))
  /\ ProblemPage.hintsUsed st' - ProblemPage.hintsUsed st
     = ProblemPage.hintsRevealed st' - ProblemPage.hintsRevealed st
  /\ ProblemPage.requests st' - ProblemPage.requests st
     = ProblemPage.hintsRevealed st' - ProblemPage.hintsRevealed st.
Proof.
  revert st; induction n as [|n IH]; intros st Hst; cbv zeta.
  - cbn [ProblemPage.clicks]; lia.
  - cbn [ProblemPage.clicks].
    unfold ProblemPage.handleShowHint at 1 2 3 4 5.
    destruct (Z.ltb_spec (ProblemPage.hintsRevealed st)
                         (Z.of_nat (List.length hints))) as [Hlt|Hge].
    + specialize (IH (ProblemPage.handleHintUsed
                        {| ProblemPage.hintsRevealed :=
                             ProblemPage.hintsRevealed st + 1;
                           ProblemPage.hintsUsed := ProblemPage.hintsUsed st;
                           ProblemPage.requests := ProblemPage.requests st |})).
      cbv zeta in IH.
      cbn [ProblemPage.handleHintUsed ProblemPage.hintsRevealed
           ProblemPage.hintsUsed ProblemPage.requests] in IH.
      destruct IH as (H1 & H2 & H3); [lia|].
      cbn [ProblemPage.handleHintUsed ProblemPage.hintsRevealed
           ProblemPage.hintsUsed ProblemPage.requests] in *.
      lia.
    + destruct (IH st Hst) as (H1 & H2 & H3). lia.
Qed.

(** X17. Starting from a fresh page, [n] clicks on the hint button reveal
    the first [min n k] of the [k] hints and no more: clicks past the last
    hint change nothing and send no request.  The hints counted on the
    page and the requests sent always equal the hints revealed, the count
    of remaining hints is never negative, and the button is offered
    exactly while fewer clicks than hints were made. *)
Theorem hints_are_revealed_one_by_one :
  forall hints n,
    let st := ProblemPage.clicks hints n ProblemPage.initial in
    ProblemPage.hintsRevealed st
    = Z.of_nat (Nat.min n (List.length hints))
    /\ ProblemPage.hintsUsed st = ProblemPage.hintsRevealed st
    /\ ProblemPage.requests st = ProblemPage.hintsRevealed st
    /\ ProblemPage.revealedHints hints st
       = firstn (Nat.min n (List.length hints)) hints
    /\ ProblemPage.remaining hints st
       = Z.of_nat (List.length hints - n)
    /\ (ProblemPage.buttonOffered hints st = true
        <-> (n < List.length hints)%nat).
Proof.
  intros hints n st; subst st.
  destruct (@clicks_from hints n ProblemPage.initial) as (H1 & H2 & H3);
    [cbn; lia|].
  cbn [ProblemPage.initial ProblemPage.hintsRevealed ProblemPage.hintsUsed
       ProblemPage.requests] in H1, H2, H3.
  assert (Hr : ProblemPage.hintsRevealed
                 (ProblemPage.clicks hints n ProblemPage.initial)
               = Z.of_nat (Nat.min n (List.length hints))) by lia.
  split; [exact Hr|]. split; [lia|]. split; [lia|].
  unfold ProblemPage.revealedHints, ProblemPage.remaining,
    ProblemPage.buttonOffered.
  rewrite Hr, Nat2Z.id.
  split; [reflexivity|]. split; [lia|].
  rewrite Z.ltb_lt; lia.
Qed.

End ProblemPageProperties.

(** * The problem statement *)

Section ProblemDescriptionProperties.

Import ProblemDescription.

Lemma loop_app lines more :
  forall i st,
    loop i (lines ++ more) st
    = loop (i + Z.of_nat (List.length lines)) more (loop i lines st).
Proof.
  induction lines as [|line lines IH]; intros i st.
  - cbn [app loop List.length]; rewrite Z.add_0_r; reflexivity.
  - cbn [app loop List.length]; rewrite IH; f_equal; lia.
Qed.



Lemma loop_outside lines :
  forall i st,
    inCodeBlock st = false ->
    no_fence lines ->
    loop i lines st
    = {| elements :=
           elements st ++ map_indexed (fun line j => element_of j line) i lines;
         inCodeBlock := false;
         codeBlockLines := codeBlockLines st |}.
Proof.
  unfold no_fence.
  induction lines as [|line lines IH]; intros i st Hout Hno;
    cbn [loop map_indexed forallb] in *.
  - rewrite app_nil_r; destruct st; cbn in *; congruence.
  - apply andb_true_iff in Hno as [Hline Hno].
    apply negb_true_iff in Hline.
    unfold step at 1; rewrite Hline, Hout.
    rewrite IH by (unfold push; cbn [inCodeBlock]; assumption).
    unfold push; cbn [elements inCodeBlock codeBlockLines].
    rewrite <- app_assoc; reflexivity.
Qed.

Lemma loop_inside lines :
  forall i st,
    inCodeBlock st = true ->
    no_fence lines ->
    loop i lines st
    = {| elements := elements st;
         inCodeBlock := true;
         codeBlockLines := codeBlockLines st ++ lines |}.
Proof.
  unfold no_fence.
  induction lines as [|line lines IH]; intros i st Hin Hno;
    cbn [loop forallb] in *.
  - rewrite app_nil_r; destruct st; cbn in *; congruence.
  - apply andb_true_iff in Hno as [Hline Hno].
    apply negb_true_iff in Hline.
    unfold step at 1; rewrite Hline, Hin.
    rewrite IH by (cbn [inCodeBlock]; first [reflexivity | assumption]).
    cbn [elements inCodeBlock codeBlockLines].
    rewrite <- app_assoc; reflexivity.
Qed.




(** X18. A description without any fence line is rendered line by line:
    there is exactly one element per line, in the order of the lines, the
    element at position [n] is what line [n] alone gives under the key [n],
    and no code block is shown. *)
Theorem plain_description_gives_one_element_per_line :
  forall lines,
    no_fence lines ->
    List.length (render_lines lines) = List.length lines
    /\ (forall n line,
           nth_error lines n = Some line ->
           nth_error (render_lines lines) n
           = Some (element_of (Z.of_nat n) line))
    /\ forallb (fun e => negb (is_code_block e)) (render_lines lines) = true.
Proof.
  intros lines Hno.
  unfold render_lines.
  rewrite loop_outside by (reflexivity || exact Hno).
  cbn [elements start app].
  split; [apply length_map_indexed|]. split.
  - intros n line Hn.
    rewrite nth_error_map_indexed, Hn; reflexivity.
  - apply forallb_forall; intros e He.
    apply in_map_indexed in He as (line & j & _ & ->).
    unfold element_of.
    repeat match goal with
           | |- context [if ?b then _ else _] => destruct b
           end; reflexivity.
Qed.

(** X19. A code block that is opened and never closed is not shown at
    all: when the lines before an opening fence leave no block open and no
    fence follows it, the opening fence and every line after it are
    dropped from the rendering. *)
Theorem unclosed_code_block_is_dropped :
  forall before opening after,
    inCodeBlock (loop 0 before start) = false ->
    is_fence opening = true ->
    no_fence after ->
    render_lines (before ++ opening :: after) = render_lines before.
Proof.
  intros before opening after Hout Hopen Hno.
  unfold render_lines at 1.
  rewrite loop_app; cbn [loop].
  unfold step at 1; rewrite Hopen, Hout.
  rewrite loop_inside by (reflexivity || exact Hno).
  reflexivity.
Qed.


Lemma loop_indices lines :
  forall i st,
    (forall a b e1 e2,
        nth_error (elements st) a = Some e1 ->
        nth_error (elements st) b = Some e2 ->
        (a < b)%nat -> index_of e1 < index_of e2) ->
    (forall e, In e (elements st) -> 0 <= index_of e < i) ->
    0 <= i ->
    let els := elements (loop i lines st) in
    (forall a b e1 e2,
        nth_error els a = Some e1 ->
        nth_error els b = Some e2 ->
        (a < b)%nat -> index_of e1 < index_of e2)
    /\ (forall e, In e els ->
                  0 <= index_of e < i + Z.of_nat (List.length lines)).
Proof.
  induction lines as [|line lines IH]; intros i st Hinc Hbound Hi;
    cbn [loop List.length].
  - cbv zeta; split; [exact Hinc|].
    intros e He; specialize (Hbound e He); lia.
  - assert (Hpush : forall e,
               index_of e = i ->
               (forall a b e1 e2,
                   nth_error (elements st ++ [e]) a = Some e1 ->
                   nth_error (elements st ++ [e]) b = Some e2 ->
                   (a < b)%nat -> index_of e1 < index_of e2)
               /\ (forall x, In x (elements st ++ [e]) ->
                             0 <= index_of x < i + 1)).
    { intros e He; split.
      - intros a b e1 e2 Ha Hb Hab.
        assert (Hblen : (b < List.length (elements st ++ [e]))%nat)
          by (apply nth_error_Some; congruence).
        rewrite length_app in Hblen; cbn [List.length] in Hblen.
        rewrite nth_error_app1 in Ha by lia.
        destruct (Nat.eq_dec b (List.length (elements st))) as [->|Hb'].
        + rewrite nth_error_app2, Nat.sub_diag in Hb by lia.
          cbn [nth_error] in Hb; injection Hb as <-.
          apply nth_error_In in Ha; specialize (Hbound _ Ha); lia.
        + rewrite nth_error_app1 in Hb by lia. eapply Hinc; eauto.
      - intros x Hx; apply in_app_or in Hx as [Hx|[<-|[]]];
          [specialize (Hbound x Hx)|]; lia. }
    assert (Hkeep : forall e, In e (elements st) -> 0 <= index_of e < i + 1)
      by (intros e He; specialize (Hbound e He); lia).
    specialize (IH (i + 1) (step i line st)).
    cbv zeta in *.
    replace (i + Z.of_nat (S (List.length lines)))
      with (i + 1 + Z.of_nat (List.length lines)) by lia.
    apply IH; [| |lia]; unfold step, push;
      destruct (is_fence line), (inCodeBlock st);
      cbn [elements]; auto;
      try (apply (Hpush _ eq_refl));
      apply Hpush; unfold element_of;
      repeat match goal with
             | |- context [if ?b then _ else _] => destruct b
             end; reflexivity.
Qed.

(** X21. The elements of a rendering carry the indices of their lines in
    strictly increasing order, each index being that of a line of the
    description; so no two elements share a key and there are never more
    elements than lines. *)
Theorem element_keys_increase :
  forall lines,
    let els := render_lines lines in
    (forall a b e1 e2,
        nth_error els a = Some e1 ->
        nth_error els b = Some e2 ->
        (a < b)%nat -> index_of e1 < index_of e2)
    /\ (forall e, In e els ->
                  0 <= index_of e < Z.of_nat (List.length lines))
    /\ NoDup (map index_of els).
Proof.
  intros lines els; subst els; unfold render_lines.
  destruct (@loop_indices lines 0 start) as [Hinc Hbound];
    [intros [|a] b e1 e2 H; discriminate H | intros e [] | lia |].
  cbv zeta in Hinc, Hbound.
  split; [exact Hinc|]. split; [exact Hbound|].
  apply NoDup_nth_error; intros a b Ha E.
  rewrite !nth_error_map in E.
  rewrite length_map in Ha.
  destruct (nth_error (elements (loop 0 lines start)) a) as [e1|] eqn:E1;
    [|apply nth_error_None in E1; lia].
  destruct (nth_error (elements (loop 0 lines start)) b) as [e2|] eqn:E2;
    [|discriminate].
  cbn [option_map] in E; injection E as E.
  destruct (Nat.lt_trichotomy a b) as [Hlt|[Heq|Hgt]]; [|exact Heq|].
  - pose proof (Hinc _ _ _ _ E1 E2 Hlt); lia.
  - pose proof (Hinc _ _ _ _ E2 E1 Hgt); lia.
Qed.

End ProblemDescriptionProperties.

(** * The displayed result *)

Section DisplayProperties.
Context {RT : NumberRuntime}.

Lemma not_missing (m : option (list jsstring)) :
  missing_or_blank m = false ->
  exists a, m = Some a /\ trim (group1 a) <> [].
Proof.
  destruct m as [a|]; [|discriminate].
  cbn [missing_or_blank]; intros H; exists a; split; [reflexivity|].
  intros E; rewrite E in H; discriminate H.
Qed.

(** X22. When none of the four checks fails, the tuple that is displayed
    holds what the code binds: the texts captured for name, city and
    profession, none of them blank, and the Number of the captured
    numeral, a positive integer.  The fallbacks [unknown], 0 and [NaN]
    do not show. *)
Theorem accepted_card_is_displayed_with_its_values :
  forall code,
    missing_or_blank (String_match code re_name) = false ->
    missing_or_not_positive (String_match code re_age) = false ->
    missing_or_blank (String_match code re_city) = false ->
    missing_or_blank (String_match code re_profession) = false ->
    exists name age city profession,
      business_card_display code
      = js "('" ++ name ++ js "', " ++ Number_toString (Number_of_int age)
           ++ js ", '" ++ city ++ js "', '" ++ profession ++ js "')"
      /\ 0 < age
      /\ trim name <> [] /\ trim city <> [] /\ trim profession <> []
      /\ (exists m, String_match code re_name = Some m /\ group1 m = name)
      /\ (exists m, String_match code re_age = Some m
                    /\ parseInt (group1 m) = Some age)
      /\ (exists m, String_match code re_city = Some m /\ group1 m = city)
      /\ (exists m, String_match code re_profession = Some m
                    /\ group1 m = profession).
Proof.
  intros src Hname Hage Hcity Hprofession.
  destruct (not_missing _ Hname) as (n & En & Hn).
  destruct (not_missing _ Hcity) as (c & Ec & Hc).
  destruct (not_missing _ Hprofession) as (p & Ep & Hp).
  destruct (String_match src re_age) as [a|] eqn:Ea; [|discriminate Hage].
  destruct (String_match_age _ Ea)
    as (pre & ws1 & ws2 & digits & rest & _ & _ & _ & Hne & Hdigits & Hg).
  destruct (parseInt_digits Hne Hdigits) as (z & Hz & Hz0 & _).
  cbn [missing_or_not_positive] in Hage.
  rewrite Hg, Hz in Hage; cbn [le_zero] in Hage.
  apply Z.leb_gt in Hage.
  exists (group1 n), z, (group1 c), (group1 p).
  split.
  - unfold business_card_display; cbv zeta.
    rewrite En, Ea, Ec, Ep, Hg, Hz; reflexivity.
  - split; [exact Hage|]. split; [exact Hn|]. split; [exact Hc|].
    split; [exact Hp|].
    split; [exists n; split; [exact En | reflexivity]|].
    split; [exists a; split; [reflexivity | rewrite Hg; exact Hz]|].
    split; [exists c; split; [exact Ec | reflexivity]
           | exists p; split; [exact Ep | reflexivity]].
Qed.

Lemma unknown_card :
  js "('" ++ js "unknown" ++ js "', " ++ decimal 0 ++ js ", '" ++ js "unknown"
     ++ js "', '" ++ js "unknown" ++ js "')"
  = js "('unknown', 0, 'unknown', 'unknown')".
Proof. vm_compute; reflexivity. Qed.

(** X23. The submission shows a business card whatever the problem is.
    A submission that passes and binds none of the four fields, which
    only a problem other than the business card lets through, is shown
    the tuple of the fallbacks, [('unknown', 0, 'unknown', 'unknown')]. *)
Theorem submission_shows_a_card_for_any_problem :
  forall db req random problemData rest,
    select_problem db (problem_id req) = problemData :: rest ->
    submit_allPassed problemData (code req) = true ->
    String_match (code req) re_name = None ->
    String_match (code req) re_age = None ->
    String_match (code req) re_city = None ->
    String_match (code req) re_profession = None ->
    title problemData <> js "Personal Information Card"
    /\ exists body,
        snd (submit_solution db req random) = Json body
        /\ success body = true
        /\ includes (output body) (js "('unknown', 0, 'unknown', 'unknown')")
           = true.
Proof.
  intros db req random problemData rest Hsel Hpass Hn Ha Hc Hp.
  split.
  - intros Htitle.
    apply submit_allPassed_iff in Hpass as (_ & _ & _ & Hcontent).
    destruct (@submit_content_age _ problemData (code req) Htitle) as [Hok _].
    specialize (Hok Hcontent); rewrite Ha in Hok; discriminate Hok.
  - destruct (@submit_solution_found _ db req random problemData rest Hsel)
      as (body & Hrun & Hsuccess & _ & _ & _ & _ & Hout).
    exists body; rewrite Hrun; split; [reflexivity|].
    rewrite Hpass in Hsuccess; split; [exact Hsuccess|].
    rewrite Hout, Hsuccess.
    assert (Hshown : business_card_display (code req)
                     = js "('unknown', 0, 'unknown', 'unknown')").
    { unfold business_card_display; cbv zeta.
      rewrite Hn, Ha, Hc, Hp, toString_safe_int by lia.
      apply unknown_card. }
    rewrite <- Hshown; apply includes_submit_success_output.
Qed.

End DisplayProperties.

(** * Instances of the further properties *)

Lemma submit_answers_404_iff_no_such_problem_witness :
  (forall p, In p (problems (sample_database [])) ->
             id p <> problem_id unknown_request)
  /\ snd (submit_solution (sample_database []) unknown_request sample_draw)
     = NotFound (js "Problem not found").
Proof.
  assert (H : forall p, In p (problems (sample_database [])) ->
                        id p <> problem_id unknown_request).
  { intros p [<-|[]]; apply Z.eqb_neq; reflexivity. }
  split; [exact H|].
  exact (proj2 (proj1 (proj2 (submit_answers_404_iff_no_such_problem
                                (sample_database []) unknown_request
                                sample_draw))) H).
Defined.



Lemma error_goes_with_failure_witness :
  exists e,
    error (execute_code let_code [] sample_draw) = Some e
    /\ success (execute_code let_code [] sample_draw) = false.
Proof.
  destruct (error (execute_code let_code [] sample_draw)) as [e|] eqn:E.
  - exists e; split; [reflexivity|].
    exact (proj1 error_goes_with_failure let_code [] sample_draw e E).
  - vm_compute in E; discriminate E.
Defined.



Lemma accepted_card_holds_quoted_fields_witness :
  includes (business_card_code (js "30")) (js "create_business_card") = true
  /\ fst (execute_content (business_card_code (js "30"))) = true
  /\ holds_quoted_binding (business_card_code (js "30")) "name"
  /\ holds_quoted_binding (business_card_code (js "30")) "city"
  /\ holds_quoted_binding (business_card_code (js "30")) "profession".
Proof.
  assert (H1 : includes (business_card_code (js "30"))
                        (js "create_business_card") = true)
    by (vm_compute; reflexivity).
  assert (H2 : fst (execute_content (business_card_code (js "30"))) = true)
    by (vm_compute; reflexivity).
  split; [exact H1|]. split; [exact H2|].
  exact (proj1 (accepted_card_holds_quoted_fields
                  (business_card_code (js "30"))) H1 H2).
Defined.

Lemma content_errors_in_field_order_witness :
  includes (business_card_code (js "-1")) (js "create_business_card") = true
  /\ fst (execute_content (business_card_code (js "-1")))
     = negb (missing_or_blank
               (String_match (business_card_code (js "-1")) re_name)
             || missing_or_not_positive
                  (String_match (business_card_code (js "-1")) re_age)
             || missing_or_blank
                  (String_match (business_card_code (js "-1")) re_city)
             || missing_or_blank
                  (String_match (business_card_code (js "-1")) re_profession)).
Proof.
  assert (H : includes (business_card_code (js "-1"))
                       (js "create_business_card") = true)
    by (vm_compute; reflexivity).
  split; [exact H|].
  exact (proj2 (proj1 (content_errors_in_field_order
                         (business_card_code (js "-1"))) H)).
Defined.

Lemma dashboard_counts_are_consistent_witness :
  exists s,
    In s sample_dashboard
    /\ 0 <= Dashboard.completed_lessons s <= Dashboard.total_lessons s
    /\ Dashboard.total_lessons s = Z.of_nat (List.length (Dashboard.lessons s)).
Proof.
  exists (Dashboard.sectionWithProgress sample_lessons sample_problem_rows
                                        [completed_row] (sample_section 1 false)).
  assert (Hin : In (Dashboard.sectionWithProgress
                      sample_lessons sample_problem_rows [completed_row]
                      (sample_section 1 false)) sample_dashboard)
    by (left; reflexivity).
  split; [exact Hin|].
  destruct (proj2 (dashboard_counts_are_consistent
                     sample_sections sample_lessons sample_problem_rows
                     [completed_row]) _ Hin) as (_ & Hle & Htotal & _).
  split; [exact Hle | exact Htotal].
Defined.

Lemma current_problem_is_first_open_problem_witness :
  exists p,
    Dashboard.currentProblem sample_dashboard = Some p
    /\ Dashboard.is_completed p = false.
Proof.
  destruct (Dashboard.currentProblem sample_dashboard) as [p|] eqn:E.
  - exists p; split; [reflexivity|].
    exact (proj1 (proj1 (proj2 (current_problem_is_first_open_problem
                                  sample_dashboard)) p E)).
  - discriminate E.
Defined.

Lemma dashboard_progress_comes_from_first_row_witness :
  [completed_row] = [] ++ completed_row :: []
  /\ problemId completed_row = ProblemsTable.id (sample_problem_row 1 1)
  /\ Dashboard.is_completed
       (Dashboard.problemWithProgress [completed_row] (sample_problem_row 1 1))
     = isCompleted completed_row
  /\ Dashboard.attempts
       (Dashboard.problemWithProgress [completed_row] (sample_problem_row 1 1))
     = stored_attempts completed_row.
Proof.
  assert (H1 : [completed_row] = [] ++ completed_row :: []) by reflexivity.
  assert (H2 : problemId completed_row
               = ProblemsTable.id (sample_problem_row 1 1)) by reflexivity.
  split; [exact H1|]. split; [exact H2|].
  destruct (proj2 (proj2 (dashboard_progress_comes_from_first_row
                            [completed_row] (sample_problem_row 1 1)))
                  [] completed_row [] H1 H2 (fun r (H : In r []) => match H with end))
    as (A & B & _).
  split; [exact A | exact B].
Defined.

Lemma total_problems_counts_no_row_twice_witness :
  NoDup (map SectionsTable.id sample_sections)
  /\ NoDup (map LessonsTable.id sample_lessons)
  /\ Z.of_nat (List.length (Dashboard.openProblems sample_dashboard))
     <= Dashboard.totalProblems sample_dashboard
     <= Z.of_nat (List.length sample_problem_rows).
Proof.
  assert (H1 : NoDup (map SectionsTable.id sample_sections)).
  { vm_compute. repeat constructor; cbn [In]; intuition discriminate. }
  assert (H2 : NoDup (map LessonsTable.id sample_lessons)).
  { vm_compute. repeat constructor; cbn [In]; intuition discriminate. }
  split; [exact H1|]. split; [exact H2|].
  exact (total_problems_counts_no_row_twice
           sample_sections sample_lessons sample_problem_rows [completed_row]
           H1 H2).
Defined.

Lemma problem_details_answers_witness :
  exists body,
    ProblemDetails.problem_details sample_tables 1 = ProblemDetails.Ok body
    /\ ProblemDetails.id body = 1
    /\ ProblemDetails.progress body
       = {| ProblemDetails.is_completed := false;
            ProblemDetails.attempts := 0;
            ProblemDetails.best_time := None;
            ProblemDetails.hints_used := 0 |}.
Proof.
  destruct (ProblemDetails.problem_details sample_tables 1)
    as [body|message|message] eqn:E.
  - exists body; split; [reflexivity|].
    destruct (proj2 (proj2 (problem_details_answers sample_tables 1)) body E)
      as (A & B & _).
    split; [exact A | exact B].
  - discriminate E.
  - discriminate E.
Defined.

Lemma clock_shows_minutes_and_two_digit_seconds_witness :
  0 <= 65 < 2 ^ 53
  /\ (let shown := ProblemPage.formatTime 65 in
      let tens := Z.to_N (48 + (65 mod 60) / 10) in
      let ones := Z.to_N (48 + (65 mod 60) mod 10) in
      shown = decimal (65 / 60) ++ [58%N; tens; ones]
      /\ parseInt shown = Some (65 / 60)
      /\ parseInt (skipn (List.length shown - 2) shown) = Some (65 mod 60)
      /\ forall other,
          0 <= other < 2 ^ 53 ->
          ProblemPage.formatTime other = shown -> other = 65).
Proof.
  assert (H : 0 <= 65 < 2 ^ 53) by lia.
  split; [exact H|].
  exact (clock_shows_minutes_and_two_digit_seconds H).
Defined.

Lemma plain_description_gives_one_element_per_line_witness :
  ProblemDescription.no_fence (heading_lines ++ bullet_lines)
  /\ List.length (ProblemDescription.render_lines (heading_lines ++ bullet_lines))
     = List.length (heading_lines ++ bullet_lines)
  /\ (forall n line,
         nth_error (heading_lines ++ bullet_lines) n = Some line ->
         nth_error (ProblemDescription.render_lines
                      (heading_lines ++ bullet_lines)) n
         = Some (ProblemDescription.element_of (Z.of_nat n) line))
  /\ forallb (fun e => negb (ProblemDescription.is_code_block e))
             (ProblemDescription.render_lines (heading_lines ++ bullet_lines))
     = true.
Proof.
  assert (H : ProblemDescription.no_fence (heading_lines ++ bullet_lines))
    by (vm_compute; reflexivity).
  split; [exact H|].
  exact (plain_description_gives_one_element_per_line H).
Defined.

Lemma unclosed_code_block_is_dropped_witness :
  ProblemDescription.inCodeBlock
    (ProblemDescription.loop 0 heading_lines ProblemDescription.start) = false
  /\ ProblemDescription.is_fence opening_fence = true
  /\ ProblemDescription.no_fence code_lines
  /\ ProblemDescription.render_lines
       (heading_lines ++ opening_fence :: code_lines)
     = ProblemDescription.render_lines heading_lines.
Proof.
  assert (H1 : ProblemDescription.inCodeBlock
                 (ProblemDescription.loop 0 heading_lines
                                          ProblemDescription.start) = false)
    by (vm_compute; reflexivity).
  assert (H2 : ProblemDescription.is_fence opening_fence = true)
    by (vm_compute; reflexivity).
  assert (H3 : ProblemDescription.no_fence code_lines)
    by (vm_compute; reflexivity).
  split; [exact H1|]. split; [exact H2|]. split; [exact H3|].
  exact (@unclosed_code_block_is_dropped
           heading_lines opening_fence code_lines H1 H2 H3).
Defined.


Lemma element_keys_increase_witness :
  exists e1 e2,
    nth_error (ProblemDescription.render_lines
                 (split 10%N sample_description)) 3 = Some e1
    /\ nth_error (ProblemDescription.render_lines
                    (split 10%N sample_description)) 4 = Some e2
    /\ (3 < 4)%nat
    /\ ProblemDescription.index_of e1 < ProblemDescription.index_of e2.
Proof.
  destruct (nth_error (ProblemDescription.render_lines
                         (split 10%N sample_description)) 3)
    as [e1|] eqn:E1; [|vm_compute in E1; discriminate E1].
  destruct (nth_error (ProblemDescription.render_lines
                         (split 10%N sample_description)) 4)
    as [e2|] eqn:E2; [|vm_compute in E2; discriminate E2].
  assert (Hlt : (3 < 4)%nat) by lia.
  exists e1, e2.
  split; [reflexivity|]. split; [reflexivity|]. split; [exact Hlt|].
  exact (proj1 (element_keys_increase (split 10%N sample_description))
               3%nat 4%nat e1 e2 E1 E2 Hlt).
Defined.

Lemma accepted_card_is_displayed_with_its_values_witness :
  missing_or_blank (String_match (business_card_code (js "30")) re_name) = false
  /\ missing_or_not_positive
       (String_match (business_card_code (js "30")) re_age) = false
  /\ missing_or_blank (String_match (business_card_code (js "30")) re_city)
     = false
  /\ missing_or_blank
       (String_match (business_card_code (js "30")) re_profession) = false
  /\ exists name age city profession,
      business_card_display (business_card_code (js "30"))
      = js "('" ++ name ++ js "', " ++ Number_toString (Number_of_int age)
           ++ js ", '" ++ city ++ js "', '" ++ profession ++ js "')"
      /\ 0 < age
      /\ trim name <> [] /\ trim city <> [] /\ trim profession <> [].
Proof.
  assert (H1 : missing_or_blank
                 (String_match (business_card_code (js "30")) re_name) = false)
    by (vm_compute; reflexivity).
  assert (H2 : missing_or_not_positive
                 (String_match (business_card_code (js "30")) re_age) = false)
    by (vm_compute; reflexivity).
  assert (H3 : missing_or_blank
                 (String_match (business_card_code (js "30")) re_city) = false)
    by (vm_compute; reflexivity).
  assert (H4 : missing_or_blank
                 (String_match (business_card_code (js "30")) re_profession)
               = false)
    by (vm_compute; reflexivity).
  split; [exact H1|]. split; [exact H2|]. split; [exact H3|].
  split; [exact H4|].
  destruct (accepted_card_is_displayed_with_its_values _ H1 H2 H3 H4)
    as (name & age & city & profession & A & B & C & D & E & _).
  exists name, age, city, profession.
  split; [exact A|]. split; [exact B|]. split; [exact C|].
  split; [exact D | exact E].
Defined.

Lemma submission_shows_a_card_for_any_problem_witness :
  select_problem greeting_database (problem_id greeting_request)
  = [greeting_problem]
  /\ submit_allPassed greeting_problem (code greeting_request) = true
  /\ String_match (code greeting_request) re_name = None
  /\ String_match (code greeting_request) re_age = None
  /\ String_match (code greeting_request) re_city = None
  /\ String_match (code greeting_request) re_profession = None
  /\ title greeting_problem <> js "Personal Information Card"
  /\ exists body,
      snd (submit_solution greeting_database greeting_request sample_draw)
      = Json body
      /\ success body = true
      /\ includes (output body) (js "('unknown', 0, 'unknown', 'unknown')")
         = true.
Proof.
  assert (H1 : select_problem greeting_database (problem_id greeting_request)
               = [greeting_problem]) by reflexivity.
  assert (H2 : submit_allPassed greeting_problem (code greeting_request) = true)
    by (vm_compute; reflexivity).
  assert (H3 : String_match (code greeting_request) re_name = None)
    by (vm_compute; reflexivity).
  assert (H4 : String_match (code greeting_request) re_age = None)
    by (vm_compute; reflexivity).
  assert (H5 : String_match (code greeting_request) re_city = None)
    by (vm_compute; reflexivity).
  assert (H6 : String_match (code greeting_request) re_profession = None)
    by (vm_compute; reflexivity).
  split; [exact H1|]. split; [exact H2|]. split; [exact H3|].
  split; [exact H4|]. split; [exact H5|]. split; [exact H6|].
  exact (submission_shows_a_card_for_any_problem
           greeting_database greeting_request sample_draw H1 H2 H3 H4 H5 H6).
Defined.
